(** * Molho Molho: Turbo Piment -- the canvas fighting prototype

    A shallow embedding of [main.ts] (classes [Fighter] and [Game]) and the
    properties of its per-frame simulation.

    Numbers.  A TypeScript [number] is modelled by an exact rational
    ([Q]): arithmetic is the field arithmetic of the source expressions,
    without rounding, [NaN] or infinities.  Equalities between computed
    numbers are therefore stated with [==] ([Qeq]); a field that the code
    assigns a literal to is equal to that literal with [=].  Where [NaN]
    and the infinities decide a property, the ground clamp of
    [Fighter.update], the update is taken again over the numbers extended
    by them ([Ext]).

    Objects.  The two fighters are two distinct objects made by two [new
    Fighter(...)] calls and are only reached through [this.player] and
    [this.cpu], so each is a record value held by the game record.  The
    sprite is one [HTMLImageElement] shared by reference; it is never
    written, and carries a handle that stands for its identity. *)

From Stdlib Require Import QArith Qabs Lqa.
From stdpp Require Import base option strings gmap.

(** ** Numbers *)

Module Num.

Definition number : Type := Q.

(** [a >= b] *)
Definition geb (a b : number) : bool := Qle_bool b a.

(** [a > b] *)
Definition gtb (a b : number) : bool := negb (Qle_bool a b).

(** [a < b] *)
Definition ltb (a b : number) : bool := negb (Qle_bool b a).

End Num.

Import Num.

Local Open Scope Q_scope.

(** ** The sprite image *)

(** What the program reads of an [HTMLImageElement]: its intrinsic size
    (the DOM gives [width] and [height] as unsigned integers).  [handle]
    identifies the object. *)
Record HTMLImageElement : Type := mkImage {
  handle : nat;
  width : N;
  height : N
}.

Definition img_width (i : HTMLImageElement) : number := inject_Z (Z.of_N (width i)).
Definition img_height (i : HTMLImageElement) : number := inject_Z (Z.of_N (height i)).

(** ** class Fighter *)

Record Fighter : Type := mkFighter {
  img : HTMLImageElement;
  x : number;
  y : number;
  vx : number;
  vy : number;
  facing : number;   (* 1 = right, -1 = left *)
  onGround : bool
}.

Definition set_x (v : number) (f : Fighter) : Fighter :=
  mkFighter (img f) v (y f) (vx f) (vy f) (facing f) (onGround f).
Definition set_y (v : number) (f : Fighter) : Fighter :=
  mkFighter (img f) (x f) v (vx f) (vy f) (facing f) (onGround f).
Definition set_vx (v : number) (f : Fighter) : Fighter :=
  mkFighter (img f) (x f) (y f) v (vy f) (facing f) (onGround f).
Definition set_vy (v : number) (f : Fighter) : Fighter :=
  mkFighter (img f) (x f) (y f) (vx f) v (facing f) (onGround f).
Definition set_facing (v : number) (f : Fighter) : Fighter :=
  mkFighter (img f) (x f) (y f) (vx f) (vy f) v (onGround f).
Definition set_onGround (b : bool) (f : Fighter) : Fighter :=
  mkFighter (img f) (x f) (y f) (vx f) (vy f) (facing f) b.

(** [new Fighter(img, x, y)] *)
Definition new_Fighter (i : HTMLImageElement) (x0 y0 : number) : Fighter :=
  mkFighter i x0 y0 0 0 1 false.

(** The three statements of [update] that integrate the motion. *)
Definition integrate (dt : number) (f : Fighter) : Fighter :=
  let f := set_vy (vy f + 600 * dt) f in
  let f := set_x (x f + vx f * dt) f in
  set_y (y f + vy f * dt) f.

(** The ground collision at [y = 150]. *)
Definition ground_collision (f : Fighter) : Fighter :=
  if geb (y f + img_height (img f) * 2) 150 then
    let f := set_y (150 - img_height (img f) * 2) f in
    let f := set_vy 0 f in
    set_onGround true f
  else
    set_onGround false f.

(** [Fighter.update(dt)] *)
Definition Fighter_update (dt : number) (f : Fighter) : Fighter :=
  ground_collision (integrate dt f).

(** ** The 2D drawing context

    Only what [draw] uses: the current transformation matrix and the
    drawing attributes, the stack of [save]/[restore], and the list of
    paint operations issued so far (newest first), each with the matrix
    and attributes in force when it was issued. *)

Record Matrix : Type := mkMatrix {
  ma : number; mb : number; mc : number; md : number; me : number; mf : number
}.

Definition identity : Matrix := mkMatrix 1 0 0 1 0 0.

(** Canvas coordinates of the user-space point [(px, py)]. *)
Definition apply_x (m : Matrix) (px py : number) : number := ma m * px + mc m * py + me m.
Definition apply_y (m : Matrix) (px py : number) : number := mb m * px + md m * py + mf m.

Definition scale_matrix (sx sy : number) (m : Matrix) : Matrix :=
  mkMatrix (ma m * sx) (mb m * sx) (mc m * sy) (md m * sy) (me m) (mf m).

Record DrawState : Type := mkDrawState {
  transform : Matrix;
  fillStyle : string;
  font : string;
  textAlign : string;
  imageSmoothingEnabled : bool
}.

Inductive Paint : Type :=
  | FillRect (m : Matrix) (style : string) (rx ry rw rh : number)
  | DrawImage (m : Matrix) (i : HTMLImageElement) (dx dy dw dh : number)
  | FillText (m : Matrix) (style fnt align text : string) (tx ty : number).

Record Context : Type := mkContext {
  cur : DrawState;
  saved : list DrawState;
  painted : list Paint
}.

Definition set_cur (d : DrawState) (c : Context) : Context :=
  mkContext d (saved c) (painted c).
Definition paint (p : Paint) (c : Context) : Context :=
  mkContext (cur c) (saved c) (p :: painted c).

Definition set_transform (m : Matrix) (d : DrawState) : DrawState :=
  mkDrawState m (fillStyle d) (font d) (textAlign d) (imageSmoothingEnabled d).
Definition set_fillStyle (v : string) (c : Context) : Context :=
  set_cur (mkDrawState (transform (cur c)) v (font (cur c)) (textAlign (cur c))
             (imageSmoothingEnabled (cur c))) c.
Definition set_font (v : string) (c : Context) : Context :=
  set_cur (mkDrawState (transform (cur c)) (fillStyle (cur c)) v (textAlign (cur c))
             (imageSmoothingEnabled (cur c))) c.
Definition set_textAlign (v : string) (c : Context) : Context :=
  set_cur (mkDrawState (transform (cur c)) (fillStyle (cur c)) (font (cur c)) v
             (imageSmoothingEnabled (cur c))) c.
Definition set_imageSmoothingEnabled (v : bool) (c : Context) : Context :=
  set_cur (mkDrawState (transform (cur c)) (fillStyle (cur c)) (font (cur c))
             (textAlign (cur c)) v) c.

(** [ctx.save()] *)
Definition save (c : Context) : Context :=
  mkContext (cur c) (cur c :: saved c) (painted c).

(** [ctx.restore()]; nothing happens on an empty stack. *)
Definition restore (c : Context) : Context :=
  match saved c with
  | d :: ds => mkContext d ds (painted c)
  | [] => c
  end.

(** [ctx.scale(sx, sy)] *)
Definition scale (sx sy : number) (c : Context) : Context :=
  set_cur (set_transform (scale_matrix sx sy (transform (cur c))) (cur c)) c.

(** [ctx.drawImage(img, dx, dy, dw, dh)] *)
Definition drawImage (i : HTMLImageElement) (dx dy dw dh : number) (c : Context) : Context :=
  paint (DrawImage (transform (cur c)) i dx dy dw dh) c.

(** [ctx.fillRect(x, y, w, h)] *)
Definition fillRect (rx ry rw rh : number) (c : Context) : Context :=
  paint (FillRect (transform (cur c)) (fillStyle (cur c)) rx ry rw rh) c.

(** [ctx.fillText(text, x, y)] *)
Definition fillText (text : string) (tx ty : number) (c : Context) : Context :=
  paint (FillText (transform (cur c)) (fillStyle (cur c)) (font (cur c))
           (textAlign (cur c)) text tx ty) c.

(** Where a drawn image lands: the canvas abscissa and ordinate of the
    point of the image at the fractions [u] (across) and [v] (down) of
    its size, [0 <= u, v <= 1]. *)
Definition image_x (m : Matrix) (dx dy dw dh u v : number) : number :=
  apply_x m (dx + u * dw) (dy + v * dh).
Definition image_y (m : Matrix) (dx dy dw dh u v : number) : number :=
  apply_y m (dx + u * dw) (dy + v * dh).

(** [Fighter.draw(ctx)] *)
Definition Fighter_draw (f : Fighter) (c : Context) : Context :=
  let c := save c in
  let c :=
    if ltb (facing f) 0 then
      let c := scale (-1) 1 c in
      drawImage (img f) (- x f - img_width (img f) * 2) (y f)
        (img_width (img f) * 2) (img_height (img f) * 2) c
    else
      drawImage (img f) (x f) (y f)
        (img_width (img f) * 2) (img_height (img f) * 2) c in
  restore c.

(** ** class Game *)

Inductive Phase : Type := loading | vs | fight.

Global Instance Phase_eq_dec : EqDecision Phase.
Proof. solve_decision. Defined.

(** The fields assigned after construction ([bg], [fighterImg], [player],
    [cpu]) are [undefined] until then. *)
Record Game : Type := mkGame {
  ctx : Context;
  bg : option HTMLImageElement;
  fighterImg : option HTMLImageElement;
  player : option Fighter;
  cpu : option Fighter;
  keys : gmap string bool;
  state : Phase;
  lastTime : number
}.

Definition set_ctx (v : Context) (g : Game) : Game :=
  mkGame v (bg g) (fighterImg g) (player g) (cpu g) (keys g) (state g) (lastTime g).
Definition set_bg (v : option HTMLImageElement) (g : Game) : Game :=
  mkGame (ctx g) v (fighterImg g) (player g) (cpu g) (keys g) (state g) (lastTime g).
Definition set_fighterImg (v : option HTMLImageElement) (g : Game) : Game :=
  mkGame (ctx g) (bg g) v (player g) (cpu g) (keys g) (state g) (lastTime g).
Definition set_player (v : option Fighter) (g : Game) : Game :=
  mkGame (ctx g) (bg g) (fighterImg g) v (cpu g) (keys g) (state g) (lastTime g).
Definition set_cpu (v : option Fighter) (g : Game) : Game :=
  mkGame (ctx g) (bg g) (fighterImg g) (player g) v (keys g) (state g) (lastTime g).
Definition set_keys (v : gmap string bool) (g : Game) : Game :=
  mkGame (ctx g) (bg g) (fighterImg g) (player g) (cpu g) v (state g) (lastTime g).
Definition set_state (v : Phase) (g : Game) : Game :=
  mkGame (ctx g) (bg g) (fighterImg g) (player g) (cpu g) (keys g) v (lastTime g).
Definition set_lastTime (v : number) (g : Game) : Game :=
  mkGame (ctx g) (bg g) (fighterImg g) (player g) (cpu g) (keys g) (state g) v.

(** [this.keys[code]] used as a condition: an absent key is [undefined],
    which is falsy. *)
Definition held (ks : gmap string bool) (code : string) : bool :=
  default false (ks !! code).

(** *** The steps of [update] in the fight state *)

(** Player input: A/D for horizontal movement. *)
Definition player_input (ks : gmap string bool) (p : Fighter) : Fighter :=
  let p := set_vx 0 p in
  if held ks "KeyA" then
    let p := set_vx (-120) p in
    set_facing (-1) p
  else if held ks "KeyD" then
    let p := set_vx 120 p in
    set_facing 1 p
  else p.

(** Player input: W for jump. *)
Definition player_jump (ks : gmap string bool) (p : Fighter) : Fighter :=
  if held ks "KeyW" && onGround p then set_vy (-250) p else p.

(** CPU AI: move towards the player horizontally. *)
Definition cpu_ai (p c : Fighter) : Fighter :=
  let dx := x p - x c in
  let c := set_vx (if gtb (Qabs dx) 40 then (if gtb dx 0 then 80 else -80) else 0) c in
  set_facing (if geb (vx c) 0 then 1 else -1) c.

(** Random jumps for CPU; [rnd] is the value of [Math.random()]. *)
Definition cpu_jump (rnd : number) (c : Fighter) : Fighter :=
  if onGround c && ltb rnd 0.01 then set_vy (-250) c else c.

(** [Game.update(dt)].  [None] is the [TypeError] of reading a property
    of an [undefined] fighter. *)
Definition Game_update (dt rnd : number) (g : Game) : option Game :=
  match state g with
  | fight =>
      p ← player g;
      let p := player_input (keys g) p in
      let p := player_jump (keys g) p in
      let p := Fighter_update dt p in
      c ← cpu g;
      let c := cpu_ai p c in
      let c := cpu_jump rnd c in
      let c := Fighter_update dt c in
      Some (set_cpu (Some c) (set_player (Some p) g))
  | _ => Some g
  end.

(** The canvas is 320 by 180. *)
Definition canvas_width : number := 320.
Definition canvas_height : number := 180.

(** [Game.draw()] *)
Definition Game_draw (g : Game) : option Game :=
  let c := ctx g in
  let c := set_fillStyle "#000000" c in
  let c := fillRect 0 0 canvas_width canvas_height c in
  let c :=
    match bg g with
    | Some b => drawImage b 0 0 canvas_width canvas_height c
    | None => c
    end in
  let c :=
    match state g with
    | vs =>
        let c := set_fillStyle "#FFFFFF" c in
        let c := set_font "16px monospace" c in
        let c := set_textAlign "center" c in
        fillText "Ready? Press SPACE" (canvas_width / 2) (canvas_height / 2) c
    | _ => c
    end in
  match state g with
  | fight =>
      p ← player g;
      let c := Fighter_draw p c in
      q ← cpu g;
      let c := Fighter_draw q c in
      Some (set_ctx c g)
  | _ => Some (set_ctx c g)
  end.

(** The body of [loop(timestamp)] up to the request for the next frame. *)
Definition Game_loop (timestamp rnd : number) (g : Game) : option Game :=
  let dt := (timestamp - lastTime g) / 1000 in
  let g := set_lastTime timestamp g in
  g ← Game_update dt rnd g;
  Game_draw g.

(** The [keydown] listener. *)
Definition keydown (code : string) (g : Game) : Game :=
  let g := set_keys (<[code := true]> (keys g)) g in
  if bool_decide (state g = vs) && bool_decide (code = "Space") then
    set_state fight g
  else g.

(** The [keyup] listener. *)
Definition keyup (code : string) (g : Game) : Game :=
  set_keys (<[code := false]> (keys g)) g.

(** [loadAssets], resumed with the background image: the assignment of
    [this.bg].  (The load of the sprite it then starts is in [step].) *)
Definition loadAssets_bg (i : HTMLImageElement) (g : Game) : Game :=
  set_bg (Some i) g.

(** [loadAssets], resumed with the sprite: the rest of its body, up to the
    request for the first frame. *)
Definition loadAssets_sprite (i : HTMLImageElement) (g : Game) : Game :=
  let g := set_fighterImg (Some i) g in
  let g := set_player (Some (new_Fighter i 60 50)) g in
  let g := set_cpu (Some (new_Fighter i 220 50)) g in
  let g := set_cpu (set_facing (-1) <$> cpu g) g in
  set_state vs g.

(** ** The page: the game and its pending callbacks

    [new Game()] registers the two key listeners and calls [loadAssets],
    which runs up to its first [await].  From then on the program only
    runs when the browser calls one of its callbacks back; each callback
    runs to completion before the next.  [pending] is where [loadAssets]
    is suspended, [looping] whether an animation-frame callback is
    requested. *)

Inductive LoadStage : Type :=
  | AwaitBg        (* awaiting [loadDataImage(assets.marketSky)] *)
  | AwaitSprite    (* awaiting [loadDataImage(assets.pimentRougeIdle0)] *)
  | Finished       (* [loadAssets] has returned *)
  | Rejected.      (* a load failed: [loadAssets] has thrown *)

Global Instance LoadStage_eq_dec : EqDecision LoadStage.
Proof. solve_decision. Defined.

Record Page : Type := mkPage {
  game : Game;
  pending : LoadStage;
  looping : bool
}.

Inductive Event : Type :=
  | KeyDown (code : string)
  | KeyUp (code : string)
  | ImageLoaded (i : HTMLImageElement)    (* [img.onload] of the awaited image *)
  | ImageError                            (* [img.onerror] of the awaited image *)
  | AnimationFrame (timestamp rnd : number).

Definition initial_ctx : Context :=
  set_imageSmoothingEnabled false
    (mkContext (mkDrawState identity "#000000" "10px sans-serif" "start" true) [] []).

(** The field initialisers and the constructor of [Game]. *)
Definition new_Game : Game :=
  mkGame initial_ctx None None None None ∅ loading 0.

Definition initial_page : Page := mkPage new_Game AwaitBg false.

(** One callback.  An event nothing is waiting for changes nothing; an
    exception out of [loop] leaves the frame unrequested. *)
Definition step (w : Page) (e : Event) : Page :=
  match e with
  | KeyDown code => mkPage (keydown code (game w)) (pending w) (looping w)
  | KeyUp code => mkPage (keyup code (game w)) (pending w) (looping w)
  | ImageLoaded i =>
      match pending w with
      | AwaitBg => mkPage (loadAssets_bg i (game w)) AwaitSprite (looping w)
      | AwaitSprite => mkPage (loadAssets_sprite i (game w)) Finished true
      | _ => w
      end
  | ImageError =>
      match pending w with
      | AwaitBg | AwaitSprite => mkPage (game w) Rejected (looping w)
      | _ => w
      end
  | AnimationFrame timestamp rnd =>
      if looping w then
        match Game_loop timestamp rnd (game w) with
        | Some g => mkPage g (pending w) true
        | None => mkPage (set_lastTime timestamp (game w)) (pending w) false
        end
      else w
  end.

(** The page after a sequence of events. *)
Definition run (w : Page) (es : list Event) : Page := fold_left step es w.

Definition rank (s : Phase) : nat :=
  match s with loading => 0 | vs => 1 | fight => 2 end.

(** How many of the steps of a run take the state from [loading] to [vs]. *)
Fixpoint vs_entries (w : Page) (es : list Event) : nat :=
  match es with
  | [] => 0
  | e :: es' =>
      (if bool_decide (state (game w) = loading ∧ state (game (step w e)) = vs)
       then 1 else 0)%nat + vs_entries (step w e) es'
  end.

(** ** Derived notions and sample data *)

(** Two images, for the examples. *)
Definition sky : HTMLImageElement := mkImage 0 320 180.
Definition sprite : HTMLImageElement := mkImage 1 16 24.

(** The players of the frame in the fight state: the player after its
    input, jump and [update], and the opponent after its rule, jump and
    [update], which reads the position of the updated player. *)
Definition player_frame (ks : gmap string bool) (dt : number) (p : Fighter) : Fighter :=
  Fighter_update dt (player_jump ks (player_input ks p)).

Definition cpu_frame (dt rnd : number) (p' c : Fighter) : Fighter :=
  Fighter_update dt (cpu_jump rnd (cpu_ai p' c)).

(** A game in the fight state, for the examples: the fighters where
    [loadAssets] puts them, with the keys [ks]. *)
Definition fight_game (ks : gmap string bool) : Game :=
  set_keys ks (set_state fight (loadAssets_sprite sprite (loadAssets_bg sky new_Game))).

Definition keys_A_D : gmap string bool := <["KeyD" := true]> (<["KeyA" := true]> ∅).

Definition ready_game (ks : gmap string bool) : Game :=
  set_keys ks (loadAssets_sprite sprite (loadAssets_bg sky new_Game)).

Definition keys_W : gmap string bool := <["KeyW" := true]> ∅.

(** Two facts about the order of one pair of numbers that exclude each
    other. *)
Ltac order_clash :=
  exfalso;
  match goal with
  | H1 : ?a < ?b, H2 : ?b < ?a |- _ =>
      exact (Qlt_irrefl a (Qlt_trans a b a H1 H2))
  | H1 : ?a <= ?b, H2 : ?b < ?a |- _ =>
      exact (Qle_not_lt a b H1 H2)
  | H : ?a <= ?b |- _ => exact (H eq_refl)
  end.

(** A fight-state game with the player at [xp] and the opponent at [xc],
    both in the air and no key held. *)
Definition duel (xp xc : number) : Game :=
  set_cpu (Some (new_Fighter sprite xc 50))
    (set_player (Some (new_Fighter sprite xp 50)) (fight_game ∅)).

(** The fields the asset loader assigns are all set. *)
Definition assets_set (g : Game) : Prop :=
  is_Some (bg g) /\ is_Some (fighterImg g) /\ is_Some (player g) /\ is_Some (cpu g).

(** What holds of every page the program reaches: the state is [loading]
    exactly while [loadAssets] has not returned, no frame is requested
    before it returns, and once it has returned the fighters exist. *)
Definition page_inv (w : Page) : Prop :=
  match pending w with
  | AwaitBg => state (game w) = loading /\ looping w = false
  | AwaitSprite =>
      state (game w) = loading /\ looping w = false /\ is_Some (bg (game w))
  | Finished => state (game w) <> loading /\ assets_set (game w)
  | Rejected => state (game w) = loading /\ looping w = false
  end.

(** A session: the confirm key pressed too early, the two images, and the
    confirm key again. *)
Definition session : list Event :=
  [KeyDown "Space"; ImageLoaded sky; KeyUp "Space"; ImageLoaded sprite;
   KeyDown "Space"].

(** 1 once [loadAssets] has returned, 0 before. *)
Definition finished (w : Page) : nat :=
  if bool_decide (pending w = Finished) then 1 else 0.

(** ** Notions for the properties of drawing, input and the loop *)

(** The drawing state the constructor sets up: untransformed, nothing
    saved, image smoothing off. *)
Definition canvas_inv (c : Context) : Prop :=
  transform (cur c) = identity /\ saved c = [] /\
  imageSmoothingEnabled (cur c) = false.

(** The image a fighter paints. *)
Definition Fighter_paint (m : Matrix) (f : Fighter) : Paint :=
  if ltb (facing f) 0 then
    DrawImage (scale_matrix (-1) 1 m) (img f) (- x f - img_width (img f) * 2) (y f)
      (img_width (img f) * 2) (img_height (img f) * 2)
  else
    DrawImage m (img f) (x f) (y f) (img_width (img f) * 2) (img_height (img f) * 2).

(** The paints of the background, when there is one. *)
Definition bg_paint (m : Matrix) (b : option HTMLImageElement) : list Paint :=
  match b with
  | Some i => [DrawImage m i 0 0 canvas_width canvas_height]
  | None => []
  end.

(** Whether [code] is held after the key events of [es], when [b] says
    whether it was held before them. *)
Fixpoint last_key (code : string) (b : bool) (es : list Event) : bool :=
  match es with
  | [] => b
  | KeyDown c :: es' => last_key code (if bool_decide (c = code) then true else b) es'
  | KeyUp c :: es' => last_key code (if bool_decide (c = code) then false else b) es'
  | _ :: es' => last_key code b es'
  end.

(** The page before [loadAssets] has returned: no frame requested,
    nothing painted, no frame timed, no fighter made. *)
Definition untouched (w : Page) : Prop :=
  state (game w) = loading /\ looping w = false /\
  painted (ctx (game w)) = [] /\ lastTime (game w) = 0 /\
  fighterImg (game w) = None /\ player (game w) = None /\ cpu (game w) = None.

(** A fight-state game whose two fighters have landed, with the keys [ks]. *)
Definition landed_game (ks : gmap string bool) : Game :=
  set_cpu (Some (Fighter_update 1 (set_facing (-1) (new_Fighter sprite 220 50))))
    (set_player (Some (Fighter_update 1 (new_Fighter sprite 60 50))) (fight_game ks)).

(** What holds of the two fighters whenever they exist: both are drawn
    with the sprite [loadAssets] loaded, face left or right, and have one
    of three horizontal velocities. *)
Definition player_ok (i : option HTMLImageElement) (f : Fighter) : Prop :=
  i = Some (img f) /\ (facing f = 1 \/ facing f = -1) /\
  (vx f = 0 \/ vx f = 120 \/ vx f = -120).

Definition cpu_ok (i : option HTMLImageElement) (f : Fighter) : Prop :=
  i = Some (img f) /\ (facing f = 1 \/ facing f = -1) /\
  (vx f = 0 \/ vx f = 80 \/ vx f = -80).

Definition fighters_inv (g : Game) : Prop :=
  (forall p, player g = Some p -> player_ok (fighterImg g) p) /\
  (forall c, cpu g = Some c -> cpu_ok (fighterImg g) c).

(** ** Numbers that are not numbers

    A [number] of the program can also be [NaN] or an infinity.  [Ext] is
    [Fighter.update] once more over the rationals extended by these three
    values, with the arithmetic and the comparison IEEE 754 gives them
    (rounding and the sign of zero are still left out).  On finite values it
    is the [Fighter_update] above. *)

Module Ext.

Inductive xnum : Type :=
  | NaN
  | NegInf
  | PosInf
  | Fin (q : Q).

(** The infinity that a product with an infinite factor gives, from the
    sign of the other factor; zero times infinity is [NaN]. *)
Definition signed_inf (c : comparison) : xnum :=
  match c with
  | Gt => PosInf
  | Lt => NegInf
  | Eq => NaN
  end.

(** [a + b] *)
Definition add (a b : xnum) : xnum :=
  match a, b with
  | NaN, _ | _, NaN => NaN
  | PosInf, NegInf | NegInf, PosInf => NaN
  | PosInf, _ | _, PosInf => PosInf
  | NegInf, _ | _, NegInf => NegInf
  | Fin p, Fin q => Fin (p + q)
  end.

(** [a - b] *)
Definition sub (a b : xnum) : xnum :=
  match a, b with
  | NaN, _ | _, NaN => NaN
  | PosInf, PosInf | NegInf, NegInf => NaN
  | PosInf, _ | _, NegInf => PosInf
  | NegInf, _ | _, PosInf => NegInf
  | Fin p, Fin q => Fin (p - q)
  end.

(** [a * b] *)
Definition mul (a b : xnum) : xnum :=
  match a, b with
  | NaN, _ | _, NaN => NaN
  | Fin p, Fin q => Fin (p * q)
  | Fin p, PosInf | PosInf, Fin p => signed_inf (p ?= 0)
  | Fin p, NegInf | NegInf, Fin p => signed_inf (0 ?= p)
  | PosInf, PosInf | NegInf, NegInf => PosInf
  | PosInf, NegInf | NegInf, PosInf => NegInf
  end.

(** [a >= b]; every comparison with [NaN] is false. *)
Definition geb (a b : xnum) : bool :=
  match a, b with
  | NaN, _ | _, NaN => false
  | PosInf, _ | _, NegInf => true
  | NegInf, _ | _, PosInf => false
  | Fin p, Fin q => Num.geb p q
  end.

(** [a <= b] and [a === b], as propositions. *)
Definition le (a b : xnum) : Prop := geb b a = true.
Definition eq (a b : xnum) : Prop := geb a b = true /\ geb b a = true.

Record Fighter : Type := mkFighter {
  img : HTMLImageElement;
  x : xnum;
  y : xnum;
  vx : xnum;
  vy : xnum;
  facing : xnum;
  onGround : bool
}.

(** [this.img.height * 2] *)
Definition height2 (f : Fighter) : xnum := mul (Fin (img_height (img f))) (Fin 2).

(** The three statements of [update] that integrate the motion. *)
Definition integrate (dt : xnum) (f : Fighter) : Fighter :=
  let vy1 := add (vy f) (mul (Fin 600) dt) in
  let x1 := add (x f) (mul (vx f) dt) in
  let y1 := add (y f) (mul vy1 dt) in
  mkFighter (img f) x1 y1 (vx f) vy1 (facing f) (onGround f).

(** The ground collision at [y = 150]. *)
Definition ground_collision (f : Fighter) : Fighter :=
  if geb (add (y f) (height2 f)) (Fin 150) then
    mkFighter (img f) (x f) (sub (Fin 150) (height2 f)) (vx f) (Fin 0) (facing f) true
  else
    mkFighter (img f) (x f) (y f) (vx f) (vy f) (facing f) false.

(** [Fighter.update(dt)] *)
Definition Fighter_update (dt : xnum) (f : Fighter) : Fighter :=
  ground_collision (integrate dt f).

(** The bottom edge [this.y + this.img.height * 2]. *)
Definition bottom (f : Fighter) : xnum := add (y f) (height2 f).

End Ext.

(** A fighter of finite numbers as a fighter of [Ext]. *)
Definition finite (f : Fighter) : Ext.Fighter :=
  Ext.mkFighter (img f) (Ext.Fin (x f)) (Ext.Fin (y f)) (Ext.Fin (vx f))
    (Ext.Fin (vy f)) (Ext.Fin (facing f)) (onGround f).

(** [new Fighter(sprite, 60, 50)] in [Ext]. *)
Definition ext_fighter : Ext.Fighter := finite (new_Fighter sprite 60 50).

(** ** The statements of [loadAssets] after the sprite has loaded

    One function per statement, in the order of the source; running them
    all is [loadAssets_sprite]. *)
Definition loadAssets_sprite_statements (i : HTMLImageElement) : list (Game -> Game) :=
  [ set_fighterImg (Some i);
    (fun g => set_player (Some (new_Fighter i 60 50)) g);
    (fun g => set_cpu (Some (new_Fighter i 220 50)) g);
    (fun g => set_cpu (set_facing (-1) <$> cpu g) g);
    set_state vs ].

(** The game after the statements [ss], run in order. *)
Definition exec (ss : list (Game -> Game)) (g : Game) : Game :=
  fold_left (fun g s => s g) ss g.

(** ** The names every object inherits

    [this.keys] is a plain object: a key named like a member of
    [Object.prototype] reads truthy without ever being pressed, and
    [__proto__] cannot be stored.  No keyboard event carries such a code. *)
Definition object_prototype_names : list string :=
  ["__proto__"; "constructor"; "hasOwnProperty"; "isPrototypeOf";
   "propertyIsEnumerable"; "toLocaleString"; "toString"; "valueOf";
   "__defineGetter__"; "__defineSetter__"; "__lookupGetter__"; "__lookupSetter__"].

Definition inherited (code : string) : bool :=
  bool_decide (code ∈ object_prototype_names).

(** * Properties *)

(** ** Comparisons *)

Section Comparisons.

Variables a b : number.

Lemma geb_true : geb a b = true <-> b <= a.
Proof. unfold geb. apply Qle_bool_iff. Qed.

Lemma geb_false : geb a b = false <-> a < b.
Proof.
  unfold geb. rewrite <- not_true_iff_false, Qle_bool_iff.
  split; [apply Qnot_le_lt | apply Qlt_not_le].
Qed.

Lemma gtb_false : gtb a b = false <-> a <= b.
Proof. unfold gtb. rewrite negb_false_iff. apply Qle_bool_iff. Qed.

Lemma gtb_true : gtb a b = true <-> b < a.
Proof.
  unfold gtb. rewrite negb_true_iff, <- not_true_iff_false, Qle_bool_iff.
  split; [apply Qnot_le_lt | apply Qlt_not_le].
Qed.

End Comparisons.

Lemma ltb_true a b : ltb a b = true <-> a < b.
Proof. apply (gtb_true b a). Qed.

Lemma ltb_false a b : ltb a b = false <-> b <= a.
Proof. apply (gtb_false b a). Qed.

(** ** Fighter.update *)

Section FighterUpdate.

Variable dt : number.
Variable f : Fighter.

(** The fighter after the gravity and integration statements. *)
Lemma integrate_fields :
  img (integrate dt f) = img f /\
  x (integrate dt f) = x f + vx f * dt /\
  y (integrate dt f) = y f + (vy f + 600 * dt) * dt /\
  vx (integrate dt f) = vx f /\
  vy (integrate dt f) = vy f + 600 * dt /\
  facing (integrate dt f) = facing f /\
  onGround (integrate dt f) = onGround f.
Proof. repeat split. Qed.

(** The collision test either clamps or only clears the flag. *)
Lemma ground_collision_cases (h : Fighter) :
  (150 <= y h + img_height (img h) * 2 /\
   ground_collision h =
     mkFighter (img h) (x h) (150 - img_height (img h) * 2) (vx h) 0 (facing h) true)
  \/
  (y h + img_height (img h) * 2 < 150 /\
   ground_collision h =
     mkFighter (img h) (x h) (y h) (vx h) (vy h) (facing h) false).
Proof.
  unfold ground_collision.
  destruct (geb (y h + img_height (img h) * 2) 150) eqn:E.
  - left. apply geb_true in E. split; [exact E | reflexivity].
  - right. apply geb_false in E. split; [exact E | reflexivity].
Qed.

End FighterUpdate.

(** The ground clamp in exact arithmetic: for finite numbers, after
    [update(dt)] the bottom edge [y + height * 2] is at most 150, and equal
    to 150 exactly when [onGround] is true. *)
Lemma update_ground_clamp (dt : number) (f : Fighter) :
  let f' := Fighter_update dt f in
  y f' + img_height (img f') * 2 <= 150 /\
  (y f' + img_height (img f') * 2 == 150 <-> onGround f' = true).
Proof.
  unfold Fighter_update.
  destruct (ground_collision_cases (integrate dt f)) as [[Hge ->] | [Hlt ->]];
    cbn [y img onGround].
  - split.
    + lra.
    + split; [reflexivity | intros _; ring].
  - split.
    + apply Qlt_le_weak, Hlt.
    + split; [intros Heq | discriminate].
      rewrite Heq in Hlt. exfalso. revert Hlt. apply Qlt_irrefl.
Qed.

(** [Ext] on finite numbers is the update above. *)
Lemma finite_update (dt : number) (f : Fighter) :
  Ext.Fighter_update (Ext.Fin dt) (finite f) = finite (Fighter_update dt f).
Proof.
  destruct f as [i fx fy fvx fvy ff fg].
  cbv [Ext.Fighter_update Ext.ground_collision Ext.integrate Ext.height2 finite
       Fighter_update ground_collision integrate
       set_x set_y set_vx set_vy set_facing set_onGround
       Ext.img Ext.x Ext.y Ext.vx Ext.vy Ext.facing Ext.onGround
       img x y vx vy facing onGround
       Ext.add Ext.mul Ext.sub Ext.geb].
  destruct (geb (fy + (fvy + 600 * dt) * dt + img_height i * 2) 150); reflexivity.
Qed.

(** Finite numbers move a fighter to a finite place. *)
Lemma finite_integrate (dt : number) (f : Fighter) :
  Ext.y (Ext.integrate (Ext.Fin dt) (finite f)) = Ext.Fin (y f + (vy f + 600 * dt) * dt).
Proof. reflexivity. Qed.

(** C2, as the claim has it, fails: [update(NaN)] on a new fighter leaves
    [y = NaN] and [onGround] false, and [NaN + height * 2 <= 150] is
    false. *)
Lemma update_nan_breaks_clamp :
  let f' := Ext.Fighter_update Ext.NaN ext_fighter in
  Ext.y f' = Ext.NaN /\ Ext.onGround f' = false /\
  ~ Ext.le (Ext.bottom f') (Ext.Fin 150).
Proof.
  cbv zeta. split; [reflexivity |]. split; [reflexivity |].
  unfold Ext.le. discriminate.
Qed.

(** C2, amended.  For every fighter and every [dt] for which the moved
    [y], that is [y + (vy + 600 * dt) * dt], is not [NaN] (as it is
    whenever [y], [vy] and [dt] are finite), after [update(dt)] the bottom
    edge [y + height * 2] is at most the ground line 150, and it is equal
    to 150 exactly when [onGround] is true.  The infinities are covered:
    a fall from minus infinity stays below the line, anything moved to
    plus infinity is put on it. *)
Theorem update_ground_clamp_numbers (dt : Ext.xnum) (f : Ext.Fighter) :
  Ext.y (Ext.integrate dt f) <> Ext.NaN ->
  let f' := Ext.Fighter_update dt f in
  Ext.le (Ext.bottom f') (Ext.Fin 150) /\
  (Ext.eq (Ext.bottom f') (Ext.Fin 150) <-> Ext.onGround f' = true).
Proof.
  intros Hnan. cbv zeta.
  unfold Ext.Fighter_update, Ext.ground_collision, Ext.bottom, Ext.le, Ext.eq.
  set (g := Ext.integrate dt f) in *.
  assert (Hh : forall k, Ext.height2 k = Ext.Fin (img_height (Ext.img k) * 2))
    by reflexivity.
  rewrite (Hh g).
  destruct (Ext.y g) as [| | | q] eqn:Hy; [congruence | | |];
    cbn [Ext.add Ext.geb Ext.sub Ext.y Ext.img Ext.onGround]; try rewrite Hh;
    cbn [Ext.add Ext.geb Ext.sub Ext.y Ext.img Ext.onGround].
  - split; [reflexivity |].
    split; [intros [H _]; discriminate H | discriminate].
  - assert (Hexact : geb (150 - img_height (Ext.img g) * 2 + img_height (Ext.img g) * 2) 150
                     = true /\
                     geb 150 (150 - img_height (Ext.img g) * 2 + img_height (Ext.img g) * 2)
                     = true).
    { split; apply geb_true; lra. }
    destruct Hexact as [H1 H2]. rewrite H1, H2. tauto.
  - destruct (geb (q + img_height (Ext.img g) * 2) 150) eqn:Hge;
      cbn [Ext.add Ext.geb Ext.sub Ext.y Ext.img Ext.onGround]; try rewrite Hh;
      cbn [Ext.add Ext.geb Ext.sub Ext.y Ext.img Ext.onGround].
    + assert (Hexact : geb (150 - img_height (Ext.img g) * 2 + img_height (Ext.img g) * 2)
                         150 = true /\
                       geb 150 (150 - img_height (Ext.img g) * 2
                                + img_height (Ext.img g) * 2) = true).
      { split; apply geb_true; lra. }
      destruct Hexact as [H1 H2]. rewrite H1, H2. tauto.
    + rewrite Hge.
      apply geb_false in Hge. split; [apply geb_true, Qlt_le_weak, Hge |].
      split; [intros [H _]; discriminate H | discriminate].
Qed.

Lemma update_ground_clamp_numbers_witness :
  (let f' := Ext.Fighter_update (Ext.Fin (1 # 60)) ext_fighter in
   Ext.le (Ext.bottom f') (Ext.Fin 150) /\ Ext.onGround f' = false) /\
  (let f' := Ext.Fighter_update Ext.PosInf ext_fighter in
   Ext.eq (Ext.bottom f') (Ext.Fin 150) /\ Ext.onGround f' = true).
Proof.
  cbv zeta. split.
  - destruct (update_ground_clamp_numbers (Ext.Fin (1 # 60)) ext_fighter)
      as [Hle _]; [discriminate |].
    split; [exact Hle | reflexivity].
  - destruct (update_ground_clamp_numbers Ext.PosInf ext_fighter)
      as [_ Heq]; [discriminate |].
    split; [apply Heq |]; reflexivity.
Defined.

(** C3.  For [dt >= 0], [update(dt)] first adds [600 * dt] to [vy], then
    moves [x] by [vx * dt] and [y] by the new [vy] times [dt]; when the
    moved fighter reaches the ground line it is clamped and [vy] is 0,
    otherwise [vy] is the old [vy + 600 * dt] and [y] the moved [y]. *)
Theorem update_semi_implicit_euler (dt : number) (f : Fighter) :
  0 <= dt ->
  let vy1 := vy f + 600 * dt in
  let y1 := y f + vy1 * dt in
  let f' := Fighter_update dt f in
  x f' = x f + vx f * dt /\
  y (integrate dt f) = y1 /\
  (150 <= y1 + img_height (img f) * 2 ->
     vy f' = 0 /\ y f' = 150 - img_height (img f) * 2 /\ onGround f' = true) /\
  (y1 + img_height (img f) * 2 < 150 ->
     vy f' = vy1 /\ y f' = y1 /\ onGround f' = false).
Proof.
  intros _. cbv zeta. unfold Fighter_update.
  destruct (integrate_fields dt f) as (Hi & Hx & Hy & _ & Hv & _).
  destruct (ground_collision_cases (integrate dt f)) as [[Hc ->] | [Hc ->]];
    cbn [x y vy onGround]; rewrite Hi, Hy in Hc.
  - split; [exact Hx |]. split; [exact Hy |]. split.
    + intros _. rewrite Hi. auto.
    + intros Hlt. exfalso. apply (Qlt_irrefl 150). eapply Qle_lt_trans; eassumption.
  - split; [exact Hx |]. split; [exact Hy |]. split.
    + intros Hge. exfalso. apply (Qlt_irrefl 150). eapply Qle_lt_trans; eassumption.
    + intros _. auto.
Qed.

Lemma update_semi_implicit_euler_witness :
  let f := new_Fighter sprite 60 50 in
  x (Fighter_update (1 # 10) f) = 60 + 0 * (1 # 10) /\
  vy (Fighter_update (1 # 10) f) = 0 + 600 * (1 # 10) /\
  vy (Fighter_update 1 f) = 0.
Proof.
  cbv zeta.
  pose proof (update_semi_implicit_euler (1 # 10) (new_Fighter sprite 60 50)) as H1.
  pose proof (update_semi_implicit_euler 1 (new_Fighter sprite 60 50)) as H2.
  cbv zeta in H1, H2.
  destruct H1 as (Hx & _ & _ & Hfree); [discriminate |].
  destruct H2 as (_ & _ & Hclamp & _); [discriminate |].
  split; [exact Hx |].
  split.
  - apply Hfree. reflexivity.
  - apply Hclamp. discriminate.
Defined.

(** The fields [update] does not assign. *)
Lemma Fighter_update_keeps (dt : number) (f : Fighter) :
  vx (Fighter_update dt f) = vx f /\
  facing (Fighter_update dt f) = facing f /\
  img (Fighter_update dt f) = img f.
Proof.
  unfold Fighter_update.
  destruct (ground_collision_cases (integrate dt f)) as [[_ ->] | [_ ->]];
    repeat split.
Qed.

(** C10.  [update(dt)] writes only [x], [y], [vy] and [onGround]: for
    every fighter and [dt], the horizontal velocity, the facing and the
    sprite are the ones before. *)
Theorem update_frame (dt : number) (f : Fighter) :
  let f' := Fighter_update dt f in
  vx f' = vx f /\ facing f' = facing f /\ img f' = img f /\
  f' = mkFighter (img f) (x f') (y f') (vx f) (vy f') (facing f) (onGround f').
Proof.
  cbv zeta. destruct (Fighter_update_keeps dt f) as (Hv & Hf & Hi).
  split; [exact Hv |]. split; [exact Hf |]. split; [exact Hi |].
  rewrite <- Hv, <- Hf, <- Hi. destruct (Fighter_update dt f). reflexivity.
Qed.

(** ** Game.update *)

Section FightFrame.

Variables dt rnd : number.
Variable g : Game.
Variables p c : Fighter.
Hypothesis Hstate : state g = fight.
Hypothesis Hplayer : player g = Some p.
Hypothesis Hcpu : cpu g = Some c.

Lemma Game_update_fight :
  Game_update dt rnd g =
    Some (set_cpu (Some (cpu_frame dt rnd (player_frame (keys g) dt p) c))
            (set_player (Some (player_frame (keys g) dt p)) g)).
Proof.
  unfold Game_update, cpu_frame, player_frame.
  rewrite Hstate, Hplayer. cbn [mbind option_bind].
  change (cpu g ≫= ?k = ?r) with (cpu g ≫= k = r).
  rewrite Hcpu. reflexivity.
Qed.

End FightFrame.

Lemma player_jump_frame ks p :
  vx (player_jump ks p) = vx p /\ facing (player_jump ks p) = facing p /\
  x (player_jump ks p) = x p /\ img (player_jump ks p) = img p.
Proof. unfold player_jump. destruct (held ks "KeyW" && onGround p); repeat split. Qed.

Lemma cpu_jump_frame rnd c :
  vx (cpu_jump rnd c) = vx c /\ facing (cpu_jump rnd c) = facing c /\
  x (cpu_jump rnd c) = x c /\ img (cpu_jump rnd c) = img c.
Proof. unfold cpu_jump. destruct (onGround c && ltb rnd 0.01); repeat split. Qed.

Lemma player_input_frame ks p :
  x (player_input ks p) = x p /\ y (player_input ks p) = y p /\
  vy (player_input ks p) = vy p /\ onGround (player_input ks p) = onGround p /\
  img (player_input ks p) = img p.
Proof.
  unfold player_input.
  destruct (held ks "KeyA"); [| destruct (held ks "KeyD")]; repeat split.
Qed.

(** What [player_frame] keeps of the input mapping. *)
Lemma player_frame_input ks dt p :
  vx (player_frame ks dt p) = vx (player_input ks p) /\
  facing (player_frame ks dt p) = facing (player_input ks p).
Proof.
  unfold player_frame.
  destruct (Fighter_update_keeps dt (player_jump ks (player_input ks p))) as (-> & -> & _).
  destruct (player_jump_frame ks (player_input ks p)) as (-> & -> & _).
  split; reflexivity.
Qed.

(** What [cpu_frame] keeps of the opponent's rule. *)
Lemma cpu_frame_ai dt rnd p' c :
  vx (cpu_frame dt rnd p' c) = vx (cpu_ai p' c) /\
  facing (cpu_frame dt rnd p' c) = facing (cpu_ai p' c).
Proof.
  unfold cpu_frame.
  destruct (Fighter_update_keeps dt (cpu_jump rnd (cpu_ai p' c))) as (-> & -> & _).
  destruct (cpu_jump_frame rnd (cpu_ai p' c)) as (-> & -> & _).
  split; reflexivity.
Qed.

(** C1, as the claim has it, fails: with [KeyA] and [KeyD] both held the
    input mapping gives the velocity -120, not +120, and the facing -1. *)
Lemma both_keys_not_right :
  state (fight_game keys_A_D) = fight /\
  held (keys (fight_game keys_A_D)) "KeyA" = true /\
  held (keys (fight_game keys_A_D)) "KeyD" = true /\
  (exists p, player (fight_game keys_A_D) = Some p /\
     vx (player_input keys_A_D p) == -120 /\
     ~ vx (player_input keys_A_D p) == 120 /\
     ~ facing (player_input keys_A_D p) == 1) /\
  (exists g' p', Game_update (1 # 60) (1 # 2) (fight_game keys_A_D) = Some g' /\
     player g' = Some p' /\ ~ vx p' == 120 /\ ~ facing p' == 1).
Proof.
  split; [reflexivity |]. split; [reflexivity |]. split; [reflexivity |]. split.
  - eexists. split; [reflexivity |]. repeat split; discriminate.
  - eexists _, _. split; [reflexivity |]. split; [reflexivity |].
    split; discriminate.
Qed.

(** C1, amended.  In a fight-state update with [KeyA] and [KeyD] both
    held, the input mapping sets the player's horizontal velocity to -120
    and its facing to -1 (left): the [KeyA] branch is taken and the
    [else if] of [KeyD] is not reached.  The updated player keeps both. *)
Theorem both_keys_left_wins (dt rnd : number) (g : Game) (p : Fighter) (c : Fighter) :
  state g = fight -> player g = Some p -> cpu g = Some c ->
  held (keys g) "KeyA" = true -> held (keys g) "KeyD" = true ->
  vx (player_input (keys g) p) = -120 /\
  facing (player_input (keys g) p) = -1 /\
  exists g' p', Game_update dt rnd g = Some g' /\ player g' = Some p' /\
    vx p' = -120 /\ facing p' = -1.
Proof.
  intros Hs Hp Hc HA _.
  assert (Hin : vx (player_input (keys g) p) = -120 /\
                facing (player_input (keys g) p) = -1).
  { unfold player_input. rewrite HA. split; reflexivity. }
  destruct Hin as [Hv Hf]. split; [exact Hv |]. split; [exact Hf |].
  eexists _, _. split; [apply (Game_update_fight dt rnd g p c Hs Hp Hc) |].
  split; [reflexivity |].
  destruct (player_frame_input (keys g) dt p) as [-> ->]. auto.
Qed.

Lemma both_keys_left_wins_witness :
  let g := fight_game keys_A_D in
  let p := new_Fighter sprite 60 50 in
  (held (keys g) "KeyA" = true /\ held (keys g) "KeyD" = true) /\
  vx (player_input (keys g) p) = -120 /\
  facing (player_input (keys g) p) = -1 /\
  exists g' p', Game_update (1 # 60) (1 # 2) g = Some g' /\ player g' = Some p' /\
    vx p' = -120 /\ facing p' = -1.
Proof.
  cbv zeta. split; [split; reflexivity |].
  apply (both_keys_left_wins (1 # 60) (1 # 2) (fight_game keys_A_D)
           (new_Fighter sprite 60 50) (set_facing (-1) (new_Fighter sprite 220 50)));
    reflexivity.
Defined.

(** C8.  Outside the fight state [update(dt)] returns without writing
    anything: the game, with its fighters, keys and every other field, is
    the one before, whatever [dt], the keys and the random draw. *)
Theorem update_idle (dt rnd : number) (g : Game) :
  state g <> fight -> Game_update dt rnd g = Some g.
Proof.
  intros Hs. unfold Game_update. destruct (state g); [reflexivity .. | congruence].
Qed.

Lemma update_idle_witness :
  Game_update (1 # 60) (1 # 2) (set_keys keys_A_D new_Game) = Some (set_keys keys_A_D new_Game) /\
  Game_update (1 # 60) (1 # 2) (ready_game keys_A_D) = Some (ready_game keys_A_D).
Proof.
  split.
  - apply (update_idle (1 # 60) (1 # 2) (set_keys keys_A_D new_Game)). discriminate.
  - apply (update_idle (1 # 60) (1 # 2) (ready_game keys_A_D)). discriminate.
Defined.

(** The jump rule, by cases. *)
Lemma player_jump_cases ks p :
  (held ks "KeyW" = true /\ onGround p = true /\ player_jump ks p = set_vy (-250) p) \/
  ((held ks "KeyW" = false \/ onGround p = false) /\ player_jump ks p = p).
Proof.
  unfold player_jump.
  destruct (held ks "KeyW"), (onGround p); cbn [andb]; auto.
Qed.

(** C6.  In a fight-state update the jump rule sets the player's vertical
    velocity to -250 when [KeyW] is held and the player's [onGround] flag
    is true, and only then: otherwise (in particular with [KeyW] held in
    the air) it leaves the fighter as it is.  The flag it reads is the one
    the player had when the update began, since the input mapping does not
    write it, and the player's own [update] then runs on the result. *)
Theorem jump_gating (dt rnd : number) (g : Game) (p c : Fighter) :
  state g = fight -> player g = Some p -> cpu g = Some c ->
  let p1 := player_input (keys g) p in
  let p2 := player_jump (keys g) p1 in
  onGround p1 = onGround p /\ vy p1 = vy p /\
  (held (keys g) "KeyW" = true /\ onGround p = true -> p2 = set_vy (-250) p1) /\
  (~ (held (keys g) "KeyW" = true /\ onGround p = true) -> p2 = p1) /\
  (held (keys g) "KeyW" = true -> onGround p = false ->
     vy p2 = vy p /\ vy (integrate dt p2) = vy p + 600 * dt) /\
  exists g', Game_update dt rnd g = Some g' /\
    player g' = Some (Fighter_update dt p2).
Proof.
  intros Hs Hp Hc. cbv zeta.
  destruct (player_input_frame (keys g) p) as (_ & _ & Hvy & Hog & _).
  split; [exact Hog |]. split; [exact Hvy |].
  destruct (player_jump_cases (keys g) (player_input (keys g) p))
    as [(HW & HG & ->) | (Hno & ->)]; rewrite Hog in *.
  - split; [auto |]. split; [intros Hn; exfalso; auto |].
    split; [intros _ Hf; congruence |].
    eexists. split; [apply (Game_update_fight dt rnd g p c Hs Hp Hc) |].
    unfold player_frame, player_jump. rewrite HW, Hog, HG. reflexivity.
  - split.
    { intros [HW HG]. destruct Hno; congruence. }
    split; [auto |].
    split.
    { intros _ _. split; [exact Hvy |]. cbn [integrate set_vy vy set_x set_y].
      rewrite Hvy. reflexivity. }
    eexists. split; [apply (Game_update_fight dt rnd g p c Hs Hp Hc) |].
    unfold player_frame, player_jump.
    destruct Hno as [-> | H]; [| rewrite Hog, H, andb_false_r]; reflexivity.
Qed.

Lemma jump_gating_witness :
  let g := fight_game keys_W in
  let p := new_Fighter sprite 60 50 in
  (held (keys g) "KeyW" = true /\ onGround p = false) /\
  vy (player_jump (keys g) (player_input (keys g) p)) = vy p /\
  exists g', Game_update (1 # 60) (1 # 2) g = Some g' /\
    player g' = Some (Fighter_update (1 # 60) (player_jump (keys g) (player_input (keys g) p))).
Proof.
  cbv zeta. split; [split; reflexivity |].
  destruct (jump_gating (1 # 60) (1 # 2) (fight_game keys_W)
              (new_Fighter sprite 60 50) (set_facing (-1) (new_Fighter sprite 220 50)))
    as (_ & _ & _ & _ & Hair & Hup); [reflexivity .. |].
  split; [apply Hair; reflexivity | exact Hup].
Defined.

(** The opponent's rule, by cases on the offset [dx]. *)
Lemma cpu_ai_cases (p c : Fighter) :
  let dx := x p - x c in
  (40 < Qabs dx /\ 0 < dx /\ cpu_ai p c = set_facing 1 (set_vx 80 c)) \/
  (40 < Qabs dx /\ dx < 0 /\ cpu_ai p c = set_facing (-1) (set_vx (-80) c)) \/
  (Qabs dx <= 40 /\ cpu_ai p c = set_facing 1 (set_vx 0 c)).
Proof.
  cbv zeta. unfold cpu_ai.
  destruct (gtb (Qabs (x p - x c)) 40) eqn:Habs.
  - apply gtb_true in Habs.
    destruct (gtb (x p - x c) 0) eqn:Hpos.
    + apply gtb_true in Hpos. left. auto.
    + apply gtb_false in Hpos. right. left.
      split; [exact Habs |]. split; [| reflexivity].
      apply Qle_lt_or_eq in Hpos. destruct Hpos as [Hlt | Heq]; [exact Hlt |].
      exfalso. rewrite Heq in Habs. revert Habs. apply Qle_not_lt. discriminate.
  - apply gtb_false in Habs. right. right. auto.
Qed.

(** C5.  In a fight-state update, with [dx] the updated player's [x] minus
    the opponent's: the opponent's horizontal velocity is 80 when [dx >
    40], -80 when [dx < -40] and 0 when [|dx| <= 40], and its facing is 1
    (right) exactly when that velocity is [>= 0], so also at velocity 0,
    and -1 otherwise.  The opponent's own [update] keeps both.  With the
    opponent at 0, a player at 41 gives 80, at 39 gives 0, and at -41
    gives -80 and facing left. *)
Theorem opponent_rule :
  (forall (dt rnd : number) (g : Game) (p c : Fighter),
     state g = fight -> player g = Some p -> cpu g = Some c ->
     exists g' p' c',
       Game_update dt rnd g = Some g' /\ player g' = Some p' /\ cpu g' = Some c' /\
       p' = player_frame (keys g) dt p /\
       vx c' = vx (cpu_ai p' c) /\ facing c' = facing (cpu_ai p' c)) /\
  (forall p' c : Fighter,
     let dx := x p' - x c in
     let c1 := cpu_ai p' c in
     (40 < Qabs dx -> 0 < dx -> vx c1 = 80) /\
     (40 < Qabs dx -> dx < 0 -> vx c1 = -80) /\
     (Qabs dx <= 40 -> vx c1 = 0) /\
     (0 <= vx c1 -> facing c1 = 1) /\
     (vx c1 < 0 -> facing c1 = -1) /\
     (vx c1 = 0 -> facing c1 = 1)) /\
  (forall p' c : Fighter,
     x c == 0 ->
     (x p' == 41 -> vx (cpu_ai p' c) = 80) /\
     (x p' == 39 -> vx (cpu_ai p' c) = 0) /\
     (x p' == -41 -> vx (cpu_ai p' c) = -80 /\ facing (cpu_ai p' c) = -1)).
Proof.
  split; [| split].
  - intros dt rnd g p c Hs Hp Hc.
    eexists _, _, _.
    split; [apply (Game_update_fight dt rnd g p c Hs Hp Hc) |].
    split; [reflexivity |]. split; [reflexivity |]. split; [reflexivity |].
    apply cpu_frame_ai.
  - intros p' c. cbv zeta.
    destruct (cpu_ai_cases p' c) as [(Ha & Hd & ->) | [(Ha & Hd & ->) | (Ha & ->)]];
      cbn [vx facing set_vx set_facing].
    + repeat split; try reflexivity; intros; try discriminate; order_clash.
    + repeat split; try reflexivity; intros; try discriminate; order_clash.
    + repeat split; try reflexivity; intros; try discriminate; order_clash.
  - intros p' c Hc.
    assert (Hcase := cpu_ai_cases p' c). cbv zeta in Hcase.
    split; [| split]; intros Hp; rewrite Hp, Hc in Hcase;
      destruct Hcase as [(Ha & Hd & ->) | [(Ha & Hd & ->) | (Ha & ->)]];
      cbn [vx facing set_vx set_facing]; auto; try discriminate; order_clash.
Qed.

Lemma opponent_rule_witness :
  (exists g' c', Game_update (1 # 60) (1 # 2) (duel 41 0) = Some g' /\
     cpu g' = Some c' /\ vx c' = 80 /\ facing c' = 1) /\
  (exists g' c', Game_update (1 # 60) (1 # 2) (duel 39 0) = Some g' /\
     cpu g' = Some c' /\ vx c' = 0 /\ facing c' = 1) /\
  (exists g' c', Game_update (1 # 60) (1 # 2) (duel (-41) 0) = Some g' /\
     cpu g' = Some c' /\ vx c' = -80 /\ facing c' = -1).
Proof.
  destruct opponent_rule as (Hup & Hrule & Hex).
  split; [| split].
  - destruct (Hup (1 # 60) (1 # 2) (duel 41 0) (new_Fighter sprite 41 50)
                (new_Fighter sprite 0 50))
      as (g' & p' & c' & Hg & _ & Hc & -> & Hv & Hf); [reflexivity .. |].
    exists g', c'. split; [exact Hg |]. split; [exact Hc |].
    rewrite Hv, Hf.
    destruct (Hex (player_frame (keys (duel 41 0)) (1 # 60) (new_Fighter sprite 41 50))
                (new_Fighter sprite 0 50)) as (H41 & _ & _); [reflexivity |].
    destruct (Hrule (player_frame (keys (duel 41 0)) (1 # 60) (new_Fighter sprite 41 50))
                (new_Fighter sprite 0 50)) as (_ & _ & _ & Hright & _).
    assert (H80 := H41 ltac:(vm_compute; reflexivity)).
    split; [exact H80 |]. apply Hright. rewrite H80. discriminate.
  - destruct (Hup (1 # 60) (1 # 2) (duel 39 0) (new_Fighter sprite 39 50)
                (new_Fighter sprite 0 50))
      as (g' & p' & c' & Hg & _ & Hc & -> & Hv & Hf); [reflexivity .. |].
    exists g', c'. split; [exact Hg |]. split; [exact Hc |].
    rewrite Hv, Hf.
    destruct (Hex (player_frame (keys (duel 39 0)) (1 # 60) (new_Fighter sprite 39 50))
                (new_Fighter sprite 0 50)) as (_ & H39 & _); [reflexivity |].
    destruct (Hrule (player_frame (keys (duel 39 0)) (1 # 60) (new_Fighter sprite 39 50))
                (new_Fighter sprite 0 50)) as (_ & _ & _ & _ & _ & Hidle).
    assert (H0 := H39 ltac:(vm_compute; reflexivity)).
    split; [exact H0 |]. apply Hidle, H0.
  - destruct (Hup (1 # 60) (1 # 2) (duel (-41) 0) (new_Fighter sprite (-41) 50)
                (new_Fighter sprite 0 50))
      as (g' & p' & c' & Hg & _ & Hc & -> & Hv & Hf); [reflexivity .. |].
    exists g', c'. split; [exact Hg |]. split; [exact Hc |].
    rewrite Hv, Hf.
    destruct (Hex (player_frame (keys (duel (-41) 0)) (1 # 60) (new_Fighter sprite (-41) 50))
                (new_Fighter sprite 0 50)) as (_ & _ & Hm41); [reflexivity |].
    apply Hm41. vm_compute. reflexivity.
Defined.

(** ** Fighter.draw *)

Lemma img_width_nonneg (i : HTMLImageElement) : 0 <= img_width i * 2.
Proof.
  unfold img_width. apply Qmult_le_0_compat; [| discriminate].
  change 0 with (inject_Z 0). rewrite <- Zle_Qle. apply N2Z.is_nonneg.
Qed.

(** [draw] leaves the drawing state and the stack as it found them. *)
Lemma Fighter_draw_restores (f : Fighter) (c : Context) :
  cur (Fighter_draw f c) = cur c /\ saved (Fighter_draw f c) = saved c.
Proof.
  unfold Fighter_draw. destruct (ltb (facing f) 0); split; reflexivity.
Qed.

(** The one image each facing paints. *)
Lemma Fighter_draw_right (f : Fighter) (c : Context) :
  painted (Fighter_draw (set_facing 1 f) c) =
    DrawImage (transform (cur c)) (img f) (x f) (y f)
      (img_width (img f) * 2) (img_height (img f) * 2) :: painted c.
Proof. reflexivity. Qed.

Lemma Fighter_draw_left (f : Fighter) (c : Context) :
  painted (Fighter_draw (set_facing (-1) f) c) =
    DrawImage (scale_matrix (-1) 1 (transform (cur c))) (img f)
      (- x f - img_width (img f) * 2) (y f)
      (img_width (img f) * 2) (img_height (img f) * 2) :: painted c.
Proof. reflexivity. Qed.

(** C7.  On the untransformed canvas, a fighter drawn facing left and the
    same fighter drawn facing right cover the same interval of abscissas,
    from [x] to [x + width * 2], and the same ordinates; the left-facing
    image is the right-facing one flipped within that interval: the point
    of the sprite at the fraction [u] of its width lands at [x + u * (width
    * 2)] facing right and at [x + (1 - u) * (width * 2)] facing left, the
    two being mirror images about the middle [x + width] of the interval. *)
Theorem draw_mirror (f : Fighter) (c : Context) :
  transform (cur c) = identity ->
  let w2 := img_width (img f) * 2 in
  let h2 := img_height (img f) * 2 in
  let ml := scale_matrix (-1) 1 identity in
  painted (Fighter_draw (set_facing 1 f) c) =
    DrawImage identity (img f) (x f) (y f) w2 h2 :: painted c /\
  painted (Fighter_draw (set_facing (-1) f) c) =
    DrawImage ml (img f) (- x f - w2) (y f) w2 h2 :: painted c /\
  forall u v : number,
    let xr := image_x identity (x f) (y f) w2 h2 u v in
    let xl := image_x ml (- x f - w2) (y f) w2 h2 u v in
    xr == x f + u * w2 /\
    xl == x f + (1 - u) * w2 /\
    xl == image_x identity (x f) (y f) w2 h2 (1 - u) v /\
    xl - (x f + img_width (img f)) == (x f + img_width (img f)) - xr /\
    image_y ml (- x f - w2) (y f) w2 h2 u v == image_y identity (x f) (y f) w2 h2 u v /\
    (0 <= u <= 1 -> x f <= xr <= x f + w2 /\ x f <= xl <= x f + w2).
Proof.
  intros Hid. cbv zeta.
  rewrite Fighter_draw_right, Fighter_draw_left, Hid.
  split; [reflexivity |]. split; [reflexivity |].
  intros u v.
  pose proof (img_width_nonneg (img f)) as Hw.
  unfold image_x, image_y, apply_x, apply_y, scale_matrix, identity;
    cbn [ma mb mc md me mf].
  set (w2 := img_width (img f) * 2) in *.
  assert (Hw2 : w2 == img_width (img f) + img_width (img f)) by (unfold w2; ring).
  split; [ring |]. split; [ring |]. split; [ring |].
  split; [rewrite Hw2; ring |]. split; [ring |].
  intros [Hu0 Hu1].
  assert (Hlo : 0 <= u * w2) by (apply Qmult_le_0_compat; assumption).
  assert (Hhi : u * w2 <= 1 * w2) by (apply Qmult_le_compat_r; assumption).
  repeat split; lra.
Qed.

Lemma draw_mirror_witness :
  let f := new_Fighter sprite 60 50 in
  painted (Fighter_draw (set_facing (-1) f) initial_ctx) =
    [DrawImage (scale_matrix (-1) 1 identity) sprite (- 60 - img_width sprite * 2) 50
       (img_width sprite * 2) (img_height sprite * 2)] /\
  image_x (scale_matrix (-1) 1 identity) (- 60 - img_width sprite * 2) 50
    (img_width sprite * 2) (img_height sprite * 2) 0 0 == 60 + (1 - 0) * (img_width sprite * 2).
Proof.
  cbv zeta.
  destruct (draw_mirror (new_Fighter sprite 60 50) initial_ctx) as (_ & Hl & Hpt);
    [reflexivity |].
  split; [exact Hl |]. apply (Hpt 0 0).
Defined.

(** ** The state machine of the page *)

Section Frames.

Variables dt rnd : number.
Variable g g' : Game.

Lemma Game_update_keeps :
  Game_update dt rnd g = Some g' ->
  state g' = state g /\ bg g' = bg g /\ fighterImg g' = fighterImg g /\
  (is_Some (player g) -> is_Some (player g')) /\
  (is_Some (cpu g) -> is_Some (cpu g')).
Proof.
  unfold Game_update.
  destruct (state g) eqn:Hs; try (intros [= <-]; tauto).
  destruct (player g) as [p |]; [| discriminate]. cbn [mbind option_bind].
  destruct (cpu g) as [c |] eqn:Hc; [| discriminate]. cbn [mbind option_bind].
  intros [= <-]. cbn [state bg fighterImg player cpu set_cpu set_player].
  rewrite Hs. repeat split; eauto.
Qed.

Lemma Game_draw_keeps :
  Game_draw g = Some g' -> exists c, g' = set_ctx c g.
Proof.
  unfold Game_draw.
  destruct (state g).
  - intros [= <-]. eauto.
  - intros [= <-]. eauto.
  - destruct (player g) as [p |]; [| discriminate]. cbn [mbind option_bind].
    destruct (cpu g) as [c |]; [| discriminate]. cbn [mbind option_bind].
    intros [= <-]. eauto.
Qed.

End Frames.

Lemma Game_loop_keeps (timestamp rnd : number) (g g' : Game) :
  Game_loop timestamp rnd g = Some g' ->
  state g' = state g /\ (assets_set g -> assets_set g').
Proof.
  unfold Game_loop.
  destruct (Game_update _ rnd (set_lastTime timestamp g)) as [g1 |] eqn:Hu;
    [| discriminate].
  cbn [mbind option_bind]. intros Hd.
  apply Game_update_keeps in Hu. destruct Hu as (Hs & Hb & Hf & Hp & Hc).
  apply Game_draw_keeps in Hd. destruct Hd as [c ->].
  cbn [state set_ctx]. split; [exact Hs |].
  unfold assets_set. cbn [bg fighterImg player cpu set_ctx].
  rewrite Hb, Hf. cbn [bg fighterImg set_lastTime]. tauto.
Qed.

(** In a game whose fighters exist, a frame raises no exception. *)
Lemma Game_loop_total (timestamp rnd : number) (g : Game) :
  assets_set g -> is_Some (Game_loop timestamp rnd g).
Proof.
  intros (_ & _ & [p Hp] & [c Hc]). unfold Game_loop.
  set (g0 := set_lastTime timestamp g).
  assert (Hup : exists g1, Game_update ((timestamp - lastTime g) / 1000) rnd g0 = Some g1
                        /\ is_Some (player g1) /\ is_Some (cpu g1) /\ state g1 = state g).
  { destruct (state g) eqn:Hs.
    - exists g0. unfold Game_update. cbn [state g0 set_lastTime]. rewrite Hs.
      cbn [player cpu g0 set_lastTime]. rewrite Hp, Hc. eauto.
    - exists g0. unfold Game_update. cbn [state g0 set_lastTime]. rewrite Hs.
      cbn [player cpu g0 set_lastTime]. rewrite Hp, Hc. eauto.
    - eexists. split; [apply (Game_update_fight _ rnd g0 p c); assumption |].
      cbn [player cpu state set_cpu set_player g0 set_lastTime]. eauto. }
  destruct Hup as (g1 & -> & [p1 Hp1] & [c1 Hc1] & Hs1). cbn [mbind option_bind].
  unfold Game_draw. rewrite Hp1, Hc1. destruct (state g1); cbn [mbind option_bind]; eauto.
Qed.

Lemma keydown_state (code : string) (g : Game) :
  state (keydown code g) =
    match state g with
    | vs => if bool_decide (code = "Space") then fight else vs
    | s => s
    end.
Proof.
  unfold keydown. cbn [state set_keys].
  destruct (state g) eqn:Hs; cbn [bool_decide decide_rel andb];
    try (rewrite bool_decide_eq_false_2 by discriminate; cbn [andb state set_keys]; exact Hs).
  rewrite bool_decide_eq_true_2 by reflexivity. cbn [andb].
  destruct (bool_decide (code = "Space")); cbn [state set_state set_keys]; auto.
Qed.

Lemma keydown_assets (code : string) (g : Game) :
  assets_set (keydown code g) <-> assets_set g.
Proof.
  unfold keydown, assets_set.
  destruct (bool_decide _ && bool_decide _); reflexivity.
Qed.

Lemma keydown_bg (code : string) (g : Game) : bg (keydown code g) = bg g.
Proof.
  unfold keydown. destruct (bool_decide _ && bool_decide _); reflexivity.
Qed.

Lemma page_inv_initial : page_inv initial_page.
Proof. split; reflexivity. Qed.

Lemma page_inv_step (w : Page) (e : Event) : page_inv w -> page_inv (step w e).
Proof.
  unfold page_inv. intros Hinv.
  destruct e as [code | code | i | | timestamp rnd]; cbn [step].
  - cbn [pending game looping].
    destruct (pending w).
    + destruct Hinv as [Hs Hl]. rewrite keydown_state, Hs. auto.
    + destruct Hinv as (Hs & Hl & Hb). rewrite keydown_state, keydown_bg, Hs. auto.
    + destruct Hinv as [Hne Hset]. split; [| apply keydown_assets, Hset].
      rewrite keydown_state.
      destruct (state (game w)); [congruence | | discriminate].
      destruct (bool_decide (code = "Space")); discriminate.
    + destruct Hinv as [Hs Hl]. rewrite keydown_state, Hs. auto.
  - cbn [pending game looping]. exact Hinv.
  - destruct (pending w) eqn:Hpend; cbn [pending game looping];
      try (rewrite Hpend; exact Hinv).
    + destruct Hinv as [Hs Hl]. cbn [state bg set_bg]. eauto.
    + destruct Hinv as (Hs & Hl & Hb). split; [discriminate |].
      unfold assets_set, loadAssets_sprite. cbn. eauto.
  - destruct (pending w) eqn:Hpend; cbn [pending game looping];
      try (rewrite Hpend; exact Hinv).
    + destruct Hinv as (Hs & Hl). auto.
    + destruct Hinv as (Hs & Hl & _). auto.
  - assert (Hl : looping w = true \/ looping w = false)
      by (destruct (looping w); auto).
    destruct Hl as [Hl | Hl]; rewrite Hl; [| exact Hinv].
    destruct (pending w) eqn:Hpend;
      try (exfalso; destruct Hinv as (_ & Hf & _) || destruct Hinv as (_ & Hf);
           congruence).
    destruct Hinv as [Hne Hset].
    destruct (Game_loop timestamp rnd (game w)) as [g' |] eqn:Hres.
    + cbn [pending game].
      apply Game_loop_keeps in Hres. destruct Hres as [-> Hkeep]. auto.
    + exfalso. destruct (Game_loop_total timestamp rnd (game w) Hset) as [g' Hg'].
      congruence.
Qed.

Lemma run_snoc (w : Page) (es : list Event) (e : Event) :
  run w (es ++ [e]) = step (run w es) e.
Proof. unfold run. rewrite fold_left_app. reflexivity. Qed.

Lemma run_app (w : Page) (es1 es2 : list Event) :
  run w (es1 ++ es2) = run (run w es1) es2.
Proof. unfold run. apply fold_left_app. Qed.

Lemma page_inv_run (w : Page) (es : list Event) : page_inv w -> page_inv (run w es).
Proof.
  revert w. induction es as [| e es IH]; intros w Hinv; [exact Hinv |].
  apply IH, page_inv_step, Hinv.
Qed.

(** The state after one callback. *)
Lemma step_state (w : Page) (e : Event) :
  state (game (step w e)) =
    match e with
    | KeyDown code =>
        match state (game w) with
        | vs => if bool_decide (code = "Space") then fight else vs
        | s => s
        end
    | ImageLoaded _ =>
        match pending w with
        | AwaitSprite => vs
        | _ => state (game w)
        end
    | _ => state (game w)
    end.
Proof.
  destruct e as [code | code | i | | timestamp rnd]; cbn [step].
  - apply keydown_state.
  - reflexivity.
  - destruct (pending w); reflexivity.
  - destruct (pending w); reflexivity.
  - destruct (looping w); [| reflexivity].
    destruct (Game_loop timestamp rnd (game w)) as [g' |] eqn:Hres; [| reflexivity].
    apply Game_loop_keeps in Hres. apply Hres.
Qed.

Lemma step_rank (w : Page) (e : Event) :
  page_inv w ->
  (rank (state (game w)) <= rank (state (game (step w e))) <= S (rank (state (game w))))%nat.
Proof.
  intros Hinv. rewrite step_state.
  destruct e as [code | code | i | | timestamp rnd]; try lia.
  - destruct (state (game w)); [lia | | lia].
    destruct (bool_decide (code = "Space")); cbn [rank]; lia.
  - unfold page_inv in Hinv.
    destruct (pending w); try lia.
    destruct Hinv as [-> _]. cbn [rank]. lia.
Qed.

Lemma run_rank (w : Page) (es : list Event) :
  page_inv w -> (rank (state (game w)) <= rank (state (game (run w es))))%nat.
Proof.
  revert w. induction es as [| e es IH]; intros w Hinv; [reflexivity |].
  cbn [run fold_left]. fold (run (step w e) es).
  pose proof (step_rank w e Hinv) as [Hle _].
  pose proof (IH (step w e) (page_inv_step w e Hinv)). lia.
Qed.

(** C4.  From the page as [new Game()] leaves it, whatever key events,
    image completions and frames follow: each callback leaves the state
    where it is or moves it one place along loading, vs, fight, so never
    backward and never from loading to fight; later states of a run are
    never before earlier ones; a key press changes the state only when the
    state is vs and the key is Space; and no frame raises an exception. *)
Theorem phase_monotone (es : list Event) :
  let w := run initial_page es in
  (forall e : Event,
     (rank (state (game w)) <= rank (state (game (step w e))) <= S (rank (state (game w))))%nat) /\
  (forall es' : list Event,
     (rank (state (game w)) <= rank (state (game (run w es'))))%nat) /\
  (forall code : string,
     state (game (step w (KeyDown code))) =
       match state (game w) with
       | vs => if bool_decide (code = "Space") then fight else vs
       | s => s
       end) /\
  (forall timestamp rnd : number,
     looping w = true -> is_Some (Game_loop timestamp rnd (game w))).
Proof.
  cbv zeta.
  pose proof (page_inv_run initial_page es page_inv_initial) as Hinv.
  split; [| split; [| split]].
  - intros e. apply step_rank, Hinv.
  - intros es'. apply run_rank, Hinv.
  - intros code. apply (step_state _ (KeyDown code)).
  - intros timestamp rnd Hloop. apply Game_loop_total.
    unfold page_inv in Hinv.
    destruct (pending (run initial_page es));
      try (destruct Hinv as (_ & Hf & _) || destruct Hinv as (_ & Hf); congruence).
    apply Hinv.
Qed.

Lemma phase_monotone_witness :
  looping (run initial_page session) = true /\
  state (game (run initial_page session)) = fight /\
  is_Some (Game_loop 16 (1 # 2) (game (run initial_page session))).
Proof.
  assert (Hloop : looping (run initial_page session) = true) by reflexivity.
  split; [exact Hloop |]. split; [reflexivity |].
  destruct (phase_monotone session) as (_ & _ & _ & Hsafe).
  apply Hsafe, Hloop.
Defined.

Lemma step_pending (w : Page) (e : Event) :
  pending (step w e) =
    match e, pending w with
    | ImageLoaded _, AwaitBg => AwaitSprite
    | ImageLoaded _, AwaitSprite => Finished
    | ImageError, (AwaitBg | AwaitSprite) => Rejected
    | _, s => s
    end.
Proof.
  destruct e as [code | code | i | | timestamp rnd]; cbn [step pending];
    try (destruct (pending w) eqn:Hp; cbn [pending]; congruence).
  destruct (looping w); [destruct (Game_loop timestamp rnd (game w)) |];
    cbn [pending]; destruct (pending w); reflexivity.
Qed.

(** A callback enters vs from loading exactly when it is the one that
    lets [loadAssets] return. *)
Lemma step_entry (w : Page) (e : Event) :
  page_inv w ->
  ((if bool_decide (state (game w) = loading /\ state (game (step w e)) = vs)
    then 1 else 0) + finished w = finished (step w e))%nat.
Proof.
  intros Hinv. unfold finished. rewrite step_pending, step_state.
  unfold page_inv in Hinv.
  destruct (pending w) eqn:Hpend.
  - destruct Hinv as [Hs _]. rewrite Hs.
    destruct e; cbn [bool_decide decide_rel]; reflexivity.
  - destruct Hinv as (Hs & _). rewrite Hs.
    destruct e; cbn [bool_decide decide_rel]; reflexivity.
  - destruct Hinv as [Hne _].
    rewrite (bool_decide_eq_false_2 (state (game w) = loading /\ _)) by tauto.
    destruct e; reflexivity.
  - destruct Hinv as [Hs _]. rewrite Hs.
    destruct e; cbn [bool_decide decide_rel]; reflexivity.
Qed.

Lemma vs_entries_finished (w : Page) (es : list Event) :
  page_inv w -> (vs_entries w es + finished w = finished (run w es))%nat.
Proof.
  revert w. induction es as [| e es IH]; intros w Hinv; [reflexivity |].
  cbn [vs_entries run fold_left]. fold (run (step w e) es).
  rewrite <- (IH (step w e) (page_inv_step w e Hinv)).
  rewrite <- (step_entry w e Hinv). lia.
Qed.

(** The statements of [loadAssets] after the sprite has loaded, taken in
    order from a game in the loading state: where the game stands after
    the first [k] of them. *)
Lemma loadAssets_sprite_order (i : HTMLImageElement) (g : Game) (k : nat) :
  state g = loading ->
  let gk := exec (take k (loadAssets_sprite_statements i)) g in
  ((k < 5)%nat -> state gk = loading) /\
  ((5 <= k)%nat -> state gk = vs) /\
  ((k < 2)%nat -> player gk = player g) /\
  ((2 <= k)%nat -> player gk = Some (mkFighter i 60 50 0 0 1 false)) /\
  ((k < 3)%nat -> cpu gk = cpu g) /\
  (k = 3%nat -> cpu gk = Some (mkFighter i 220 50 0 0 1 false)) /\
  ((4 <= k)%nat -> cpu gk = Some (mkFighter i 220 50 0 0 (-1) false)).
Proof.
  intros Hs. cbv zeta.
  destruct k as [| [| [| [| [| k]]]]];
    cbn [take firstn loadAssets_sprite_statements]; try rewrite take_nil;
    cbn [exec fold_left]; cbn;
    repeat split; intros; try lia; try reflexivity; try exact Hs.
Qed.

Lemma loadAssets_sprite_exec (i : HTMLImageElement) (g : Game) :
  loadAssets_sprite i g = exec (loadAssets_sprite_statements i) g.
Proof. reflexivity. Qed.

(** C9.  From the page as [new Game()] leaves it: a run enters vs from
    loading once if [loadAssets] has returned by its end, and not at all
    otherwise.  [loadAssets] returns in the callback of the sprite, the
    second image; that callback finds the state loading and the background
    set, and leaves the state vs with the player a new fighter at (60, 50)
    and the opponent a new fighter at (220, 50) with facing -1, both on the
    image just loaded.  Its statements run in the order of the source:
    after the first [k] of the five, the state is still loading for every
    [k < 5], the player is there from the second on and the opponent, with
    its facing, from the fourth on, so both fighters exist before the
    state is assigned by the fifth.  Nothing else takes the state out of
    loading. *)
Theorem loading_to_ready (es : list Event) :
  let w := run initial_page es in
  vs_entries initial_page es = finished w /\
  (forall i : HTMLImageElement,
     pending w = AwaitSprite ->
     let w' := step w (ImageLoaded i) in
     state (game w) = loading /\ is_Some (bg (game w)) /\
     pending w' = Finished /\ looping w' = true /\
     state (game w') = vs /\
     fighterImg (game w') = Some i /\
     player (game w') = Some (mkFighter i 60 50 0 0 1 false) /\
     cpu (game w') = Some (mkFighter i 220 50 0 0 (-1) false) /\
     game w' = exec (loadAssets_sprite_statements i) (game w) /\
     forall k : nat,
       let gk := exec (take k (loadAssets_sprite_statements i)) (game w) in
       ((k < 5)%nat -> state gk = loading) /\
       ((5 <= k)%nat -> state gk = vs) /\
       ((k < 2)%nat -> player gk = player (game w)) /\
       ((2 <= k)%nat -> player gk = Some (mkFighter i 60 50 0 0 1 false)) /\
       ((k < 3)%nat -> cpu gk = cpu (game w)) /\
       (k = 3%nat -> cpu gk = Some (mkFighter i 220 50 0 0 1 false)) /\
       ((4 <= k)%nat -> cpu gk = Some (mkFighter i 220 50 0 0 (-1) false))) /\
  (forall e : Event,
     state (game w) = loading -> state (game (step w e)) <> loading ->
     pending w = AwaitSprite /\ exists i, e = ImageLoaded i).
Proof.
  cbv zeta.
  pose proof (page_inv_run initial_page es page_inv_initial) as Hinv.
  split; [| split].
  - rewrite <- (vs_entries_finished initial_page es page_inv_initial).
    change (finished initial_page) with 0%nat. lia.
  - intros i Hpend. unfold page_inv in Hinv.
    rewrite Hpend in Hinv. destruct Hinv as (Hs & _ & Hb).
    cbn [step]. rewrite Hpend. cbn [pending looping game].
    split; [exact Hs |]. split; [exact Hb |].
    do 6 (split; [reflexivity |]).
    split; [apply loadAssets_sprite_exec |].
    intros k.
    exact (loadAssets_sprite_order i (game (run initial_page es)) k Hs).
  - intros e Hs. rewrite step_state, Hs.
    destruct e as [code | code | i | | timestamp rnd]; try congruence.
    destruct (pending (run initial_page es)); try congruence.
    intros _. eauto.
Qed.

Lemma loading_to_ready_witness :
  let w := run initial_page [KeyDown "Space"; ImageLoaded sky] in
  let g4 := exec (take 4 (loadAssets_sprite_statements sprite)) (game w) in
  pending w = AwaitSprite /\
  state (game (step w (ImageLoaded sprite))) = vs /\
  player (game (step w (ImageLoaded sprite))) = Some (mkFighter sprite 60 50 0 0 1 false) /\
  cpu (game (step w (ImageLoaded sprite))) = Some (mkFighter sprite 220 50 0 0 (-1) false) /\
  state g4 = loading /\
  player g4 = Some (mkFighter sprite 60 50 0 0 1 false) /\
  cpu g4 = Some (mkFighter sprite 220 50 0 0 (-1) false).
Proof.
  cbv zeta.
  destruct (loading_to_ready [KeyDown "Space"; ImageLoaded sky]) as (_ & Hload & _).
  destruct (Hload sprite) as (_ & _ & _ & _ & Hvs & _ & Hp & Hc & _ & Horder);
    [reflexivity |].
  destruct (Horder 4%nat) as (Hs4 & _ & _ & Hp4 & _ & _ & Hc4).
  split; [reflexivity |]. split; [exact Hvs |]. split; [exact Hp |].
  split; [exact Hc |]. split; [apply Hs4; lia |].
  split; [apply Hp4; lia | apply Hc4; lia].
Defined.


(** ** The canvas stays untransformed *)

Lemma Game_update_ctx (dt rnd : number) (g g' : Game) :
  Game_update dt rnd g = Some g' -> ctx g' = ctx g.
Proof.
  unfold Game_update.
  destruct (state g); try (intros [= <-]; reflexivity).
  destruct (player g) as [p |]; [| discriminate]. cbn [mbind option_bind].
  destruct (cpu g) as [c |]; [| discriminate]. cbn [mbind option_bind].
  intros [= <-]. reflexivity.
Qed.

Lemma Game_draw_transform (g g' : Game) :
  Game_draw g = Some g' ->
  transform (cur (ctx g')) = transform (cur (ctx g)).
Proof.
  unfold Game_draw.
  destruct (state g).
  - intros [= <-]. destruct (bg g); reflexivity.
  - intros [= <-]. destruct (bg g); reflexivity.
  - destruct (player g) as [p |]; [| discriminate]. cbn [mbind option_bind].
    destruct (cpu g) as [c |]; [| discriminate]. cbn [mbind option_bind].
    intros [= <-]. cbn [ctx set_ctx].
    rewrite (proj1 (Fighter_draw_restores c _)), (proj1 (Fighter_draw_restores p _)).
    destruct (bg g); reflexivity.
Qed.

Lemma step_transform (w : Page) (e : Event) :
  transform (cur (ctx (game (step w e)))) = transform (cur (ctx (game w))).
Proof.
  destruct e as [code | code | i | | timestamp rnd]; cbn [step].
  - cbn [game]. unfold keydown.
    destruct (bool_decide _ && bool_decide _); reflexivity.
  - reflexivity.
  - destruct (pending w); reflexivity.
  - destruct (pending w); reflexivity.
  - destruct (looping w); [| reflexivity].
    destruct (Game_loop timestamp rnd (game w)) as [g' |] eqn:Hres; [| reflexivity].
    cbn [game]. unfold Game_loop in Hres.
    destruct (Game_update _ rnd (set_lastTime timestamp (game w))) as [g1 |] eqn:Hu;
      [| discriminate].
    cbn [mbind option_bind] in Hres.
    rewrite (Game_draw_transform g1 g' Hres), (Game_update_ctx _ _ _ _ Hu).
    reflexivity.
Qed.

(** Every fighter is drawn on the untransformed canvas. *)
Lemma run_transform (es : list Event) :
  transform (cur (ctx (game (run initial_page es)))) = identity.
Proof.
  induction es as [| e es IH] using rev_ind; [reflexivity |].
  rewrite run_snoc, step_transform. exact IH.
Qed.

(** * Further properties *)

(** ** Drawing *)

(** What one [draw] adds to the paint log. *)
Lemma Fighter_draw_paints (f : Fighter) (c : Context) :
  painted (Fighter_draw f c) = Fighter_paint (transform (cur c)) f :: painted c.
Proof.
  unfold Fighter_draw, Fighter_paint. destruct (ltb (facing f) 0); reflexivity.
Qed.

(** X1.  [Fighter.draw] paints exactly one image, the fighter's sprite at
    twice its size, flipped exactly when [facing < 0] (so a facing of 0
    draws unflipped), and gives the context back with the drawing state
    and the stack of saved states it was given. *)
Theorem draw_balanced (f : Fighter) (c : Context) :
  cur (Fighter_draw f c) = cur c /\
  saved (Fighter_draw f c) = saved c /\
  painted (Fighter_draw f c) = Fighter_paint (transform (cur c)) f :: painted c /\
  (facing f < 0 ->
     Fighter_paint (transform (cur c)) f =
       DrawImage (scale_matrix (-1) 1 (transform (cur c))) (img f)
         (- x f - img_width (img f) * 2) (y f)
         (img_width (img f) * 2) (img_height (img f) * 2)) /\
  (0 <= facing f ->
     Fighter_paint (transform (cur c)) f =
       DrawImage (transform (cur c)) (img f) (x f) (y f)
         (img_width (img f) * 2) (img_height (img f) * 2)).
Proof.
  destruct (Fighter_draw_restores f c) as [Hcur Hsaved].
  split; [exact Hcur |]. split; [exact Hsaved |].
  split; [apply Fighter_draw_paints |].
  unfold Fighter_paint.
  destruct (ltb (facing f) 0) eqn:Hface.
  - apply ltb_true in Hface. split; [reflexivity |].
    intros Hge. exfalso. revert Hface. apply Qle_not_lt, Hge.
  - apply ltb_false in Hface. split; [| reflexivity].
    intros Hlt. exfalso. revert Hlt. apply Qle_not_lt, Hface.
Qed.

Lemma draw_balanced_witness :
  painted (Fighter_draw (set_facing 0 (new_Fighter sprite 60 50)) initial_ctx) =
    [DrawImage identity sprite 60 50 (img_width sprite * 2) (img_height sprite * 2)].
Proof.
  destruct (draw_balanced (set_facing 0 (new_Fighter sprite 60 50)) initial_ctx)
    as (_ & _ & Hp & _ & Hright).
  rewrite Hp. rewrite Hright; [reflexivity | discriminate].
Defined.

(** The context just before the fighters are drawn. *)
Lemma Game_draw_fight (g : Game) (p q : Fighter) :
  state g = fight -> player g = Some p -> cpu g = Some q ->
  Game_draw g =
    Some (set_ctx
            (Fighter_draw q
               (Fighter_draw p
                  (match bg g with
                   | Some b =>
                       drawImage b 0 0 canvas_width canvas_height
                         (fillRect 0 0 canvas_width canvas_height
                            (set_fillStyle "#000000" (ctx g)))
                   | None =>
                       fillRect 0 0 canvas_width canvas_height
                         (set_fillStyle "#000000" (ctx g))
                   end))) g).
Proof.
  intros Hs Hp Hq. unfold Game_draw. rewrite Hs, Hp, Hq.
  cbn [mbind option_bind]. reflexivity.
Qed.

(** X2.  [Game.draw] writes nothing but the canvas and paints in this
    order: the whole canvas in black (whatever fill style the frame
    before left), the background if it is loaded, then nothing more while
    loading, the prompt centred in white in the vs state, and in the fight
    state the player and over it the opponent.  In the fight state
    without a fighter it raises an exception. *)
Theorem draw_layers (g : Game) :
  let m := transform (cur (ctx g)) in
  let under :=
    bg_paint m (bg g) ++
    FillRect m "#000000" 0 0 canvas_width canvas_height :: painted (ctx g) in
  (state g = loading ->
     exists c, Game_draw g = Some (set_ctx c g) /\ painted c = under) /\
  (state g = vs ->
     exists c, Game_draw g = Some (set_ctx c g) /\
       painted c =
         FillText m "#FFFFFF" "16px monospace" "center" "Ready? Press SPACE"
           (canvas_width / 2) (canvas_height / 2) :: under) /\
  (forall p q : Fighter,
     state g = fight -> player g = Some p -> cpu g = Some q ->
     exists c, Game_draw g = Some (set_ctx c g) /\
       painted c = Fighter_paint m q :: Fighter_paint m p :: under) /\
  (state g = fight -> player g = None \/ cpu g = None -> Game_draw g = None).
Proof.
  cbv zeta. split; [| split; [| split]].
  - intros Hs. unfold Game_draw. rewrite Hs.
    eexists. split; [reflexivity |]. destruct (bg g); reflexivity.
  - intros Hs. unfold Game_draw. rewrite Hs.
    eexists. split; [reflexivity |]. destruct (bg g); reflexivity.
  - intros p q Hs Hp Hq. rewrite (Game_draw_fight g p q Hs Hp Hq).
    eexists. split; [reflexivity |].
    rewrite Fighter_draw_paints, (proj1 (Fighter_draw_restores p _)).
    rewrite Fighter_draw_paints.
    destruct (bg g); reflexivity.
  - intros Hs Hnone. unfold Game_draw. rewrite Hs.
    destruct Hnone as [Hn | Hn]; rewrite Hn; [reflexivity |].
    destruct (player g); reflexivity.
Qed.

Lemma draw_layers_witness :
  exists c, Game_draw (ready_game keys_A_D) = Some (set_ctx c (ready_game keys_A_D)) /\
    painted c =
      [FillText identity "#FFFFFF" "16px monospace" "center" "Ready? Press SPACE"
         (canvas_width / 2) (canvas_height / 2);
       DrawImage identity sky 0 0 canvas_width canvas_height;
       FillRect identity "#000000" 0 0 canvas_width canvas_height].
Proof.
  destruct (draw_layers (ready_game keys_A_D)) as (_ & Hvs & _).
  apply Hvs. reflexivity.
Defined.

(** ** The canvas over a run *)

Lemma Game_draw_canvas (g g' : Game) :
  Game_draw g = Some g' ->
  transform (cur (ctx g')) = transform (cur (ctx g)) /\
  saved (ctx g') = saved (ctx g) /\
  imageSmoothingEnabled (cur (ctx g')) = imageSmoothingEnabled (cur (ctx g)).
Proof.
  unfold Game_draw.
  destruct (state g).
  - intros [= <-]. destruct (bg g); repeat split.
  - intros [= <-]. destruct (bg g); repeat split.
  - destruct (player g) as [p |]; [| discriminate]. cbn [mbind option_bind].
    destruct (cpu g) as [c |]; [| discriminate]. cbn [mbind option_bind].
    intros [= <-]. cbn [ctx set_ctx].
    destruct (Fighter_draw_restores c
                (Fighter_draw p
                   match bg g with
                   | Some b =>
                       drawImage b 0 0 canvas_width canvas_height
                         (fillRect 0 0 canvas_width canvas_height
                            (set_fillStyle "#000000" (ctx g)))
                   | None =>
                       fillRect 0 0 canvas_width canvas_height
                         (set_fillStyle "#000000" (ctx g))
                   end)) as [-> ->].
    destruct (Fighter_draw_restores p
                match bg g with
                | Some b =>
                    drawImage b 0 0 canvas_width canvas_height
                      (fillRect 0 0 canvas_width canvas_height
                         (set_fillStyle "#000000" (ctx g)))
                | None =>
                    fillRect 0 0 canvas_width canvas_height
                      (set_fillStyle "#000000" (ctx g))
                end) as [-> ->].
    destruct (bg g); repeat split.
Qed.

Lemma step_ctx (w : Page) (e : Event) :
  ctx (game (step w e)) = ctx (game w) \/
  exists timestamp rnd g1 g',
    e = AnimationFrame timestamp rnd /\
    Game_update ((timestamp - lastTime (game w)) / 1000) rnd
      (set_lastTime timestamp (game w)) = Some g1 /\
    Game_draw g1 = Some g' /\ game (step w e) = g'.
Proof.
  destruct e as [code | code | i | | timestamp rnd]; cbn [step].
  - left. cbn [game]. unfold keydown.
    destruct (bool_decide _ && bool_decide _); reflexivity.
  - left. reflexivity.
  - left. destruct (pending w); reflexivity.
  - left. destruct (pending w); reflexivity.
  - destruct (looping w); [| left; reflexivity].
    destruct (Game_loop timestamp rnd (game w)) as [g' |] eqn:Hres; [| left; reflexivity].
    right. unfold Game_loop in Hres.
    destruct (Game_update _ rnd (set_lastTime timestamp (game w))) as [g1 |] eqn:Hu;
      [| discriminate].
    cbn [mbind option_bind] in Hres. eauto 8.
Qed.

(** X3.  Over every run from [new Game()] the canvas is in the drawing
    state the constructor set up whenever a callback returns: it is
    untransformed (the flip of a left-facing fighter never leaks), the
    stack of saved states is empty (each [save] is matched by its
    [restore]), and image smoothing is off. *)
Theorem canvas_kept (es : list Event) :
  canvas_inv (ctx (game (run initial_page es))).
Proof.
  induction es as [| e es IH] using rev_ind; [repeat split |].
  rewrite run_snoc.
  destruct (step_ctx (run initial_page es) e)
    as [-> | (timestamp & rnd & g1 & g' & _ & Hu & Hd & ->)]; [exact IH |].
  apply Game_update_ctx in Hu. apply Game_draw_canvas in Hd.
  destruct Hd as (Ht & Hs & Hi). destruct IH as (IHt & IHs & IHi).
  rewrite Hu in Ht, Hs, Hi. cbn [ctx set_lastTime] in Ht, Hs, Hi.
  unfold canvas_inv. rewrite Ht, Hs, Hi. auto.
Qed.

(** ** Before the assets are loaded, and when a load fails *)

Lemma step_untouched (w : Page) (e : Event) :
  pending (step w e) <> Finished -> untouched w -> untouched (step w e).
Proof.
  intros Hpend (Hs & Hl & Hp & Ht & Hi & Hpl & Hc).
  destruct e as [code | code | i | | timestamp rnd]; cbn [step] in *.
  - unfold untouched, keydown. cbn [game looping set_keys state].
    rewrite Hs. rewrite bool_decide_eq_false_2 by discriminate.
    cbn [andb]. repeat split; assumption.
  - repeat split; assumption.
  - destruct (pending w); try (repeat split; assumption).
    exfalso. apply Hpend. reflexivity.
  - destruct (pending w); repeat split; assumption.
  - rewrite Hl. repeat split; assumption.
Qed.

Lemma step_finished (w : Page) (e : Event) :
  pending w = Finished -> pending (step w e) = Finished.
Proof. intros H. rewrite step_pending, H. destruct e; reflexivity. Qed.

Lemma run_untouched (es : list Event) :
  pending (run initial_page es) <> Finished -> untouched (run initial_page es).
Proof.
  induction es as [| e es IH] using rev_ind; [intros _; repeat split |].
  rewrite run_snoc. intros Hpend.
  apply step_untouched; [exact Hpend |]. apply IH.
  intros Hfin. apply Hpend, step_finished, Hfin.
Qed.

Lemma run_rejected (w : Page) (es : list Event) :
  pending w = Rejected -> pending (run w es) = Rejected.
Proof.
  revert w. induction es as [| e es IH]; intros w Hrej; [exact Hrej |].
  cbn [run fold_left]. fold (run (step w e) es). apply IH.
  rewrite step_pending, Hrej. destruct e; reflexivity.
Qed.

(** X4.  Until [loadAssets] has returned, whatever keys are pressed and
    whatever else arrives, the program has not started: the state is
    loading, no frame is requested, nothing has been painted, [lastTime]
    is still 0 and no fighter exists; a key press does not leave the
    loading state, and an animation frame changes nothing. *)
Theorem nothing_before_load (es : list Event) :
  pending (run initial_page es) <> Finished ->
  let w := run initial_page es in
  untouched w /\
  (forall code : string, state (game (step w (KeyDown code))) = loading) /\
  (forall timestamp rnd : number, step w (AnimationFrame timestamp rnd) = w).
Proof.
  intros Hpend. cbv zeta.
  pose proof (run_untouched es Hpend) as Hun.
  split; [exact Hun |].
  destruct Hun as (Hs & Hl & _).
  split.
  - intros code. rewrite (step_state _ (KeyDown code)), Hs. reflexivity.
  - intros timestamp rnd. cbn [step]. rewrite Hl. reflexivity.
Qed.

Lemma nothing_before_load_witness :
  untouched (run initial_page
               [KeyDown "Space"; AnimationFrame 16 0; ImageLoaded sky; KeyDown "KeyD"]).
Proof.
  apply (nothing_before_load
           [KeyDown "Space"; AnimationFrame 16 0; ImageLoaded sky; KeyDown "KeyD"]).
  discriminate.
Defined.

(** X5.  A failed image load is final: if either image fails before
    [loadAssets] has returned, then whatever follows (further keys, a late
    image, frames) the state stays loading, no frame is ever requested
    and nothing is ever painted. *)
Theorem load_failure_final (es1 es2 : list Event) :
  pending (run initial_page es1) <> Finished ->
  let w := run initial_page (es1 ++ ImageError :: es2) in
  pending w = Rejected /\ untouched w.
Proof.
  intros Hpend. cbv zeta.
  assert (Hrej : pending (run initial_page (es1 ++ ImageError :: es2)) = Rejected).
  { rewrite run_app.
    change (run (run initial_page es1) (ImageError :: es2))
      with (run (step (run initial_page es1) ImageError) es2).
    apply run_rejected. rewrite step_pending.
    destruct (pending (run initial_page es1)); congruence. }
  split; [exact Hrej |].
  apply run_untouched. rewrite Hrej. discriminate.
Qed.

Lemma load_failure_final_witness :
  let w := run initial_page
             ([ImageLoaded sky] ++
              ImageError :: [ImageLoaded sprite; KeyDown "Space"; AnimationFrame 16 0]) in
  pending w = Rejected /\ untouched w.
Proof.
  apply (load_failure_final [ImageLoaded sky]
           [ImageLoaded sprite; KeyDown "Space"; AnimationFrame 16 0]).
  discriminate.
Defined.

(** ** The keys *)

Lemma held_insert (ks : gmap string bool) (c code : string) (b : bool) :
  held (<[c := b]> ks) code = if bool_decide (c = code) then b else held ks code.
Proof.
  unfold held. destruct (decide (c = code)) as [-> | Hne].
  - rewrite lookup_insert_eq, bool_decide_eq_true_2 by reflexivity. reflexivity.
  - rewrite lookup_insert_ne, bool_decide_eq_false_2 by assumption. reflexivity.
Qed.

Lemma Game_update_keys (dt rnd : number) (g g' : Game) :
  Game_update dt rnd g = Some g' -> keys g' = keys g /\ lastTime g' = lastTime g.
Proof.
  unfold Game_update.
  destruct (state g); try (intros [= <-]; split; reflexivity).
  destruct (player g) as [p |]; [| discriminate]. cbn [mbind option_bind].
  destruct (cpu g) as [c |]; [| discriminate]. cbn [mbind option_bind].
  intros [= <-]. split; reflexivity.
Qed.

Lemma Game_loop_keys (timestamp rnd : number) (g g' : Game) :
  Game_loop timestamp rnd g = Some g' -> keys g' = keys g /\ lastTime g' = timestamp.
Proof.
  unfold Game_loop.
  destruct (Game_update _ rnd (set_lastTime timestamp g)) as [g1 |] eqn:Hu;
    [| discriminate].
  cbn [mbind option_bind]. intros Hd.
  apply Game_update_keys in Hu. destruct Hu as [Hk Ht].
  apply Game_draw_keeps in Hd. destruct Hd as [c ->].
  cbn [keys lastTime set_ctx]. rewrite Hk, Ht. split; reflexivity.
Qed.

Lemma step_keys (w : Page) (e : Event) :
  keys (game (step w e)) =
    match e with
    | KeyDown c => <[c := true]> (keys (game w))
    | KeyUp c => <[c := false]> (keys (game w))
    | _ => keys (game w)
    end.
Proof.
  destruct e as [code | code | i | | timestamp rnd]; cbn [step].
  - cbn [game]. unfold keydown.
    destruct (bool_decide _ && bool_decide _); reflexivity.
  - reflexivity.
  - destruct (pending w); reflexivity.
  - destruct (pending w); reflexivity.
  - destruct (looping w); [| reflexivity].
    destruct (Game_loop timestamp rnd (game w)) as [g' |] eqn:Hres; [| reflexivity].
    apply Game_loop_keys in Hres. apply Hres.
Qed.

(** X6.  The key table follows the key events and nothing else.  For
    every key code that is not the name of a member of [Object.prototype]
    (every code a keyboard sends), after any run from any page the key
    counts as held exactly when the last event of that key in the run was
    a key-down (or, with no such event, when it was held before).  Keys
    never pressed count as not held, keys pressed while loading or on the
    ready screen stay held, and frames, image events and the events of
    other keys leave it alone. *)
Theorem keys_track (w : Page) (es : list Event) (code : string) :
  inherited code = false ->
  held (keys (game (run w es))) code = last_key code (held (keys (game w)) code) es.
Proof.
  intros _. revert w. induction es as [| e es IH]; intros w; [reflexivity |].
  change (run w (e :: es)) with (run (step w e) es).
  rewrite IH, step_keys.
  destruct e as [c | c | i | | timestamp rnd]; cbn [last_key];
    try reflexivity; rewrite held_insert; reflexivity.
Qed.

Lemma keys_track_witness :
  held (keys (game (run initial_page
                      [KeyDown "KeyD"; KeyDown "__proto__"; ImageLoaded sky;
                       KeyUp "KeyA"; AnimationFrame 16 0]))) "KeyD" = true /\
  held (keys (game (run initial_page
                      [KeyDown "KeyD"; ImageLoaded sky; KeyUp "KeyD"]))) "KeyD" = false.
Proof.
  split.
  - rewrite (keys_track initial_page _ "KeyD"); reflexivity.
  - rewrite (keys_track initial_page _ "KeyD"); reflexivity.
Defined.

(** ** Starting the fight *)

Lemma page_inv_loaded (w : Page) :
  page_inv w -> (pending w = Finished <-> state (game w) <> loading).
Proof.
  unfold page_inv. destruct (pending w).
  - intros [Hs _]. split; [discriminate | congruence].
  - intros [Hs _]. split; [discriminate | congruence].
  - intros [Hs _]. split; auto.
  - intros [Hs _]. split; [discriminate | congruence].
Qed.

Lemma step_fight (w : Page) (e : Event) :
  page_inv w -> state (game w) = fight -> state (game (step w e)) = fight.
Proof.
  intros Hinv Hs.
  pose proof (step_rank w e Hinv) as [Hle _]. rewrite Hs in Hle.
  destruct (state (game (step w e))); cbn [rank] in Hle; [lia | lia | reflexivity].
Qed.

(** X7.  The fight has begun exactly when the Space key went down at some
    moment after [loadAssets] had returned: a Space pressed (or still
    held) while the images were loading does not count, no other key or
    event starts the fight, and once begun nothing ends it. *)
Theorem fight_iff_confirmed (es : list Event) :
  state (game (run initial_page es)) = fight <->
  exists es1 es2 : list Event,
    es = es1 ++ KeyDown "Space" :: es2 /\ pending (run initial_page es1) = Finished.
Proof.
  induction es as [| e es IH] using rev_ind.
  - split; [discriminate |].
    intros (es1 & es2 & Heq & _). destruct es1; discriminate.
  - pose proof (page_inv_run initial_page es page_inv_initial) as Hinv.
    rewrite run_snoc. split.
    + intros Hfight.
      destruct (decide (state (game (run initial_page es)) = fight)) as [Hb | Hb].
      * apply IH in Hb. destruct Hb as (es1 & es2 & -> & Hp).
        exists es1, (es2 ++ [e]). split; [| exact Hp].
        rewrite <- app_assoc. reflexivity.
      * exists es, []. rewrite step_state in Hfight.
        destruct e as [code | code | i | | timestamp rnd]; try congruence.
        -- destruct (state (game (run initial_page es))) eqn:Hs; try congruence.
           destruct (bool_decide (code = "Space")) eqn:Hc; [| discriminate].
           apply bool_decide_eq_true_1 in Hc. subst code.
           split; [reflexivity |].
           apply page_inv_loaded; [exact Hinv | congruence].
        -- destruct (pending (run initial_page es)); congruence.
    + intros (es1 & es2 & Heq & Hp).
      destruct es2 as [| x es2 _] using rev_ind.
      * apply app_inj_tail in Heq. destruct Heq as [-> ->].
        rewrite (step_state _ (KeyDown "Space")).
        apply (page_inv_loaded _ Hinv) in Hp.
        destruct (state (game (run initial_page es1))); [congruence | | reflexivity].
        reflexivity.
      * change (es1 ++ KeyDown "Space" :: es2 ++ [x])
          with (es1 ++ (KeyDown "Space" :: es2) ++ [x]) in Heq.
        rewrite app_assoc in Heq.
        apply app_inj_tail in Heq. destruct Heq as [-> ->].
        apply step_fight; [exact Hinv |].
        apply IH. eauto.
Qed.

(** ** The player's controls *)

Lemma Fighter_update_x (dt : number) (f : Fighter) :
  x (Fighter_update dt f) = x f + vx f * dt.
Proof.
  unfold Fighter_update.
  destruct (ground_collision_cases (integrate dt f)) as [[_ ->] | [_ ->]];
    reflexivity.
Qed.

Lemma player_input_cases (ks : gmap string bool) (p : Fighter) :
  player_input ks p =
    if held ks "KeyA" then set_facing (-1) (set_vx (-120) p)
    else if held ks "KeyD" then set_facing 1 (set_vx 120 p)
    else set_vx 0 p.
Proof.
  unfold player_input. destruct (held ks "KeyA"), (held ks "KeyD"); reflexivity.
Qed.

Lemma player_input_forgets (ks : gmap string bool) (v : number) (p : Fighter) :
  player_input ks (set_vx v p) = player_input ks p.
Proof.
  rewrite !player_input_cases.
  destruct (held ks "KeyA"), (held ks "KeyD"); reflexivity.
Qed.

(** X8.  In a fight-state update the player's horizontal velocity is
    decided by the keys alone: -120 with [KeyA] held, else 120 with
    [KeyD] held, else 0; the velocity of the frame before plays no part
    (there is no inertia).  The facing follows the key and is kept when
    neither key is held, and [x] moves by the new velocity times [dt],
    with no bound on either side. *)
Theorem player_controls (dt rnd v : number) (g : Game) (p c : Fighter) :
  state g = fight -> player g = Some p -> cpu g = Some c ->
  exists g' p',
    Game_update dt rnd g = Some g' /\ player g' = Some p' /\
    vx p' = (if held (keys g) "KeyA" then -120
             else if held (keys g) "KeyD" then 120 else 0) /\
    facing p' = (if held (keys g) "KeyA" then -1
                 else if held (keys g) "KeyD" then 1 else facing p) /\
    x p' = x p + vx p' * dt /\
    Game_update dt rnd (set_player (Some (set_vx v p)) g) = Some g'.
Proof.
  intros Hs Hp Hc.
  eexists _, _. split; [apply (Game_update_fight dt rnd g p c Hs Hp Hc) |].
  split; [reflexivity |].
  destruct (player_frame_input (keys g) dt p) as [Hv Hf].
  assert (Hx : x (player_frame (keys g) dt p) =
               x p + vx (player_frame (keys g) dt p) * dt).
  { rewrite Hv. unfold player_frame. rewrite Fighter_update_x.
    destruct (player_jump_frame (keys g) (player_input (keys g) p)) as (-> & _ & -> & _).
    destruct (player_input_frame (keys g) p) as (-> & _). reflexivity. }
  rewrite Hv, Hf in *. rewrite player_input_cases.
  split; [destruct (held (keys g) "KeyA"), (held (keys g) "KeyD"); reflexivity |].
  split; [destruct (held (keys g) "KeyA"), (held (keys g) "KeyD"); reflexivity |].
  split.
  - rewrite Hx, player_input_cases. reflexivity.
  - rewrite (Game_update_fight dt rnd (set_player (Some (set_vx v p)) g)
               (set_vx v p) c Hs eq_refl Hc).
    cbn [keys set_player]. unfold player_frame at 1 2.
    rewrite player_input_forgets. reflexivity.
Qed.

Lemma player_controls_witness :
  exists g' p',
    Game_update (1 # 10) (1 # 2) (fight_game (<["KeyD" := true]> ∅)) = Some g' /\
    player g' = Some p' /\ vx p' = 120 /\ facing p' = 1 /\
    x p' = 60 + 120 * (1 # 10).
Proof.
  destruct (player_controls (1 # 10) (1 # 2) 0 (fight_game (<["KeyD" := true]> ∅))
              (new_Fighter sprite 60 50) (set_facing (-1) (new_Fighter sprite 220 50)))
    as (g' & p' & Hg & Hp & Hv & Hf & Hx & _); [reflexivity .. |].
  exists g', p'. split; [exact Hg |]. split; [exact Hp |].
  split; [exact Hv |]. split; [exact Hf |].
  rewrite Hx, Hv. reflexivity.
Defined.

(** ** Standing and jumping *)

(** X9.  A fighter at or below the ground line that is not moving up
    stays on the ground: for [dt >= 0] and [vy >= 0], if the bottom edge
    [y + height * 2] is at least 150 before [update(dt)], then after it
    the fighter stands exactly on the line with [vy = 0] and [onGround]
    true.  So a resting fighter keeps resting, and a fighter created below
    the line (a sprite taller than 50) is lifted onto it by its first
    update. *)
Theorem grounded_stays (dt : number) (f : Fighter) :
  0 <= dt -> 0 <= vy f -> 150 <= y f + img_height (img f) * 2 ->
  let f' := Fighter_update dt f in
  onGround f' = true /\ vy f' = 0 /\ y f' = 150 - img_height (img f) * 2 /\
  y f' + img_height (img f') * 2 == 150.
Proof.
  intros Hdt Hvy Hy. cbv zeta. unfold Fighter_update.
  destruct (ground_collision_cases (integrate dt f)) as [[_ ->] | [Hlt _]].
  - cbn [onGround vy y img]. repeat split. cbn [integrate img set_y set_x set_vy]. ring.
  - exfalso. cbn [integrate y img set_y set_x set_vy vy] in Hlt.
    assert (Hk : 0 <= (vy f + 600 * dt) * dt).
    { apply Qmult_le_0_compat; [| exact Hdt]. lra. }
    set (k := (vy f + 600 * dt) * dt) in *. lra.
Qed.

Lemma grounded_stays_witness :
  let f := Fighter_update 1 (new_Fighter sprite 60 50) in
  onGround (Fighter_update (1 # 60) f) = true /\ vy (Fighter_update (1 # 60) f) = 0.
Proof.
  cbv zeta.
  destruct (grounded_stays (1 # 60) (Fighter_update 1 (new_Fighter sprite 60 50)))
    as (Hg & Hv & _); [discriminate .. |].
  split; assumption.
Defined.

(** X10.  A jump needs a frame of the right length.  When [KeyW] is held
    and the player stands on the ground line with [onGround] true, the
    update sets [vy] to -250 and then integrates: on a frame of one
    millisecond to four tenths of a second, [1/1000 <= dt <= 2/5], the
    player leaves the ground, rising, with [vy = -250 + 600 * dt]; for [dt
    >= 5/12] (and for [dt = 0]) the moved position is again at or below
    the line, so the clamp takes the jump back: the player stays where it
    stood with [vy = 0]. *)
Theorem jump_window (dt rnd : number) (g : Game) (p c : Fighter) :
  state g = fight -> player g = Some p -> cpu g = Some c ->
  held (keys g) "KeyW" = true -> onGround p = true ->
  y p + img_height (img p) * 2 == 150 ->
  exists g' p',
    Game_update dt rnd g = Some g' /\ player g' = Some p' /\
    (1 # 1000 <= dt -> dt <= 2 # 5 ->
       onGround p' = false /\ vy p' = -250 + 600 * dt /\ vy p' < 0 /\ y p' < y p) /\
    (dt == 0 \/ 5 # 12 <= dt ->
       onGround p' = true /\ vy p' = 0 /\ y p' == y p).
Proof.
  intros Hs Hp Hc HW HG Hy.
  eexists _, _. split; [apply (Game_update_fight dt rnd g p c Hs Hp Hc) |].
  split; [reflexivity |].
  unfold player_frame, player_jump.
  destruct (player_input_frame (keys g) p) as (_ & Hqy & _ & Hqg & Hqi).
  rewrite HW, Hqg, HG. cbn [andb].
  set (q := player_input (keys g) p) in *.
  unfold Fighter_update.
  destruct (ground_collision_cases (integrate dt (set_vy (-250) q)))
    as [[Hge ->] | [Hlt ->]];
    cbn [integrate y img set_y set_x set_vy vy onGround] in *;
    rewrite Hqy, Hqi in *.
  - split.
    + intros Hlo Hhi. exfalso.
      assert (H0 : 0 < dt) by lra. assert (H1 : dt < 5 # 12) by lra.
      assert (Hk : (-250 + 600 * dt) * dt < 0) by nra.
      set (k := (-250 + 600 * dt) * dt) in *. lra.
    + intros _. split; [reflexivity |]. split; [reflexivity |]. lra.
  - split.
    + intros Hlo Hhi. split; [reflexivity |]. split; [reflexivity |].
      assert (H0 : 0 < dt) by lra. assert (H1 : dt < 5 # 12) by lra.
      assert (Hk : (-250 + 600 * dt) * dt < 0) by nra.
      set (k := (-250 + 600 * dt) * dt) in *. split; lra.
    + intros Hlate. exfalso.
      assert (Hk : 0 <= (-250 + 600 * dt) * dt).
      { destruct Hlate as [H0 | H1]; [rewrite H0; discriminate | nra]. }
      set (k := (-250 + 600 * dt) * dt) in *. lra.
Qed.

Lemma jump_window_witness :
  (exists g' p', Game_update (1 # 60) (1 # 2) (landed_game keys_W) = Some g' /\
     player g' = Some p' /\ onGround p' = false /\ vy p' = -250 + 600 * (1 # 60)) /\
  (exists g' p', Game_update (1 # 2) (1 # 2) (landed_game keys_W) = Some g' /\
     player g' = Some p' /\ onGround p' = true /\ vy p' = 0).
Proof.
  split.
  - destruct (jump_window (1 # 60) (1 # 2) (landed_game keys_W)
                (Fighter_update 1 (new_Fighter sprite 60 50))
                (Fighter_update 1 (set_facing (-1) (new_Fighter sprite 220 50))))
      as (g' & p' & Hg & Hp & Hjump & _); [reflexivity .. |].
    exists g', p'. split; [exact Hg |]. split; [exact Hp |].
    destruct Hjump as (Ha & Hv & _); [discriminate .. |]. split; assumption.
  - destruct (jump_window (1 # 2) (1 # 2) (landed_game keys_W)
                (Fighter_update 1 (new_Fighter sprite 60 50))
                (Fighter_update 1 (set_facing (-1) (new_Fighter sprite 220 50))))
      as (g' & p' & Hg & Hp & _ & Hlost); [reflexivity .. |].
    exists g', p'. split; [exact Hg |]. split; [exact Hp |].
    destruct Hlost as (Ha & Hv & _); [right; discriminate |]. split; assumption.
Defined.

(** ** The opponent's pursuit *)




(** ** The fighters over a run *)

Lemma player_frame_ok (i : option HTMLImageElement) (ks : gmap string bool)
    (dt : number) (p : Fighter) :
  player_ok i p -> player_ok i (player_frame ks dt p).
Proof.
  intros (Hi & Hf & _). unfold player_ok.
  destruct (player_frame_input ks dt p) as [-> ->].
  assert (Himg : img (player_frame ks dt p) = img p).
  { unfold player_frame.
    destruct (Fighter_update_keeps dt (player_jump ks (player_input ks p))) as (_ & _ & ->).
    destruct (player_jump_frame ks (player_input ks p)) as (_ & _ & _ & ->).
    apply player_input_frame. }
  rewrite Himg, player_input_cases.
  split; [exact Hi |].
  destruct (held ks "KeyA"); [| destruct (held ks "KeyD")];
    cbn [facing vx set_facing set_vx]; auto.
Qed.

Lemma cpu_frame_ok (i : option HTMLImageElement) (dt rnd : number) (p' c : Fighter) :
  cpu_ok i c -> cpu_ok i (cpu_frame dt rnd p' c).
Proof.
  intros (Hi & _). unfold cpu_ok.
  destruct (cpu_frame_ai dt rnd p' c) as [-> ->].
  assert (Himg : img (cpu_frame dt rnd p' c) = img c).
  { unfold cpu_frame.
    destruct (Fighter_update_keeps dt (cpu_jump rnd (cpu_ai p' c))) as (_ & _ & ->).
    destruct (cpu_jump_frame rnd (cpu_ai p' c)) as (_ & _ & _ & ->).
    reflexivity. }
  rewrite Himg. split; [exact Hi |].
  destruct (cpu_ai_cases p' c) as [(_ & _ & ->) | [(_ & _ & ->) | (_ & ->)]];
    cbn [facing vx set_facing set_vx]; auto.
Qed.

Lemma Game_update_fighters (dt rnd : number) (g g' : Game) :
  Game_update dt rnd g = Some g' -> fighters_inv g -> fighters_inv g'.
Proof.
  intros Hu [Hpl Hcp].
  destruct (decide (state g = fight)) as [Hs | Hs].
  - destruct (player g) as [p |] eqn:Hp.
    2: { unfold Game_update in Hu. rewrite Hs, Hp in Hu. discriminate. }
    destruct (cpu g) as [c |] eqn:Hc.
    2: { unfold Game_update in Hu. rewrite Hs, Hp in Hu.
         cbn [mbind option_bind] in Hu. rewrite Hc in Hu. discriminate. }
    rewrite (Game_update_fight dt rnd g p c Hs Hp Hc) in Hu. injection Hu as <-.
    pose proof (player_frame_ok (fighterImg g) (keys g) dt p (Hpl p eq_refl)) as Hp'.
    pose proof (cpu_frame_ok (fighterImg g) dt rnd (player_frame (keys g) dt p) c
                  (Hcp c eq_refl)) as Hc'.
    split; cbn [player cpu fighterImg set_cpu set_player]; intros f [= <-];
      assumption.
  - unfold Game_update in Hu.
    destruct (state g); try congruence; injection Hu as <-; split; assumption.
Qed.

Lemma step_fighters (w : Page) (e : Event) :
  fighters_inv (game w) -> fighters_inv (game (step w e)).
Proof.
  intros Hinv.
  destruct e as [code | code | i | | timestamp rnd]; cbn [step].
  - cbn [game]. unfold keydown.
    destruct (bool_decide _ && bool_decide _); exact Hinv.
  - exact Hinv.
  - destruct (pending w); try exact Hinv.
    split; cbn; intros f [= <-]; unfold player_ok, cpu_ok; cbn; auto.
  - destruct (pending w); exact Hinv.
  - destruct (looping w); [| exact Hinv].
    destruct (Game_loop timestamp rnd (game w)) as [g' |] eqn:Hres; [| exact Hinv].
    cbn [game]. unfold Game_loop in Hres.
    destruct (Game_update _ rnd (set_lastTime timestamp (game w))) as [g1 |] eqn:Hu;
      [| discriminate].
    cbn [mbind option_bind] in Hres.
    apply Game_draw_keeps in Hres. destruct Hres as [c ->].
    apply (Game_update_fighters _ _ _ _ Hu). exact Hinv.
Qed.

(** X12.  Over every run from [new Game()], whenever the fighters exist:
    both carry the one sprite that [loadAssets] loaded ([fighterImg]),
    each faces 1 or -1, the player's horizontal velocity is 0, 120 or
    -120 and the opponent's is 0, 80 or -80. *)
Theorem fighters_kept (es : list Event) :
  fighters_inv (game (run initial_page es)).
Proof.
  induction es as [| e es IH] using rev_ind.
  - split; intros f Hf; discriminate Hf.
  - rewrite run_snoc. apply step_fighters, IH.
Qed.

(** ** The frame clock *)

Lemma looping_loaded (w : Page) :
  page_inv w -> looping w = true ->
  state (game w) <> loading /\ assets_set (game w).
Proof.
  unfold page_inv. intros Hinv Hloop.
  destruct (pending w);
    try (destruct Hinv as (_ & Hf & _) || destruct Hinv as (_ & Hf); congruence).
  exact Hinv.
Qed.

(** X13.  Once the loop runs, every animation frame at [timestamp] sets
    [lastTime] to it and requests the next frame, in every state.  On the
    ready screen the frame moves no fighter, so the time spent there is
    not simulated later; in the fight the player and the opponent advance
    by [dt = (timestamp - lastTime) / 1000], the seconds since the frame
    before, whatever that difference is (it is not clamped). *)
Theorem frame_clock (es : list Event) (timestamp rnd : number) :
  let w := run initial_page es in
  let w' := step w (AnimationFrame timestamp rnd) in
  let dt := (timestamp - lastTime (game w)) / 1000 in
  looping w = true ->
  lastTime (game w') = timestamp /\ looping w' = true /\
  state (game w') = state (game w) /\ keys (game w') = keys (game w) /\
  (state (game w) = vs ->
     player (game w') = player (game w) /\ cpu (game w') = cpu (game w)) /\
  (state (game w) = fight ->
     exists p c, player (game w) = Some p /\ cpu (game w) = Some c /\
       player (game w') = Some (player_frame (keys (game w)) dt p) /\
       cpu (game w') =
         Some (cpu_frame dt rnd (player_frame (keys (game w)) dt p) c)).
Proof.
  cbv zeta. intros Hloop.
  pose proof (page_inv_run initial_page es page_inv_initial) as Hinv.
  set (w := run initial_page es) in *.
  destruct (looping_loaded w Hinv Hloop) as [Hne Hset].
  destruct (Game_loop_total timestamp rnd (game w) Hset) as [g' Hg'].
  cbn [step]. rewrite Hloop, Hg'. cbn [game looping].
  destruct (Game_loop_keys _ _ _ _ Hg') as [Hk Ht].
  destruct (Game_loop_keeps _ _ _ _ Hg') as [Hs _].
  split; [exact Ht |]. split; [reflexivity |]. split; [exact Hs |]. split; [exact Hk |].
  unfold Game_loop in Hg'.
  destruct (Game_update _ rnd (set_lastTime timestamp (game w))) as [g1 |] eqn:Hu;
    [| discriminate].
  cbn [mbind option_bind] in Hg'.
  apply Game_draw_keeps in Hg'. destruct Hg' as [c ->].
  cbn [player cpu set_ctx]. split.
  - intros Hvs. unfold Game_update in Hu. cbn [state set_lastTime] in Hu.
    rewrite Hvs in Hu. injection Hu as <-. split; reflexivity.
  - intros Hf. destruct Hset as (_ & _ & [p Hp] & [q Hq]).
    exists p, q. split; [exact Hp |]. split; [exact Hq |].
    rewrite (Game_update_fight _ rnd (set_lastTime timestamp (game w)) p q Hf Hp Hq)
      in Hu.
    injection Hu as <-. split; reflexivity.
Qed.

Lemma frame_clock_witness :
  let w := run initial_page session in
  lastTime (game (step w (AnimationFrame 5000 0))) = 5000 /\
  looping (step w (AnimationFrame 5000 0)) = true.
Proof.
  cbv zeta.
  destruct (frame_clock session 5000 0) as (Ht & Hl & _); [reflexivity |].
  split; assumption.
Defined.

(** ** The random draw *)

Lemma cpu_jump_draw (r1 r2 : number) (c : Fighter) :
  onGround c = false \/ (r1 < 0.01 <-> r2 < 0.01) ->
  cpu_jump r1 c = cpu_jump r2 c.
Proof.
  unfold cpu_jump. intros [Hair | Hsame].
  - rewrite Hair. reflexivity.
  - destruct (ltb r1 0.01) eqn:H1, (ltb r2 0.01) eqn:H2; try reflexivity; exfalso.
    + apply ltb_true, Hsame in H1. apply ltb_false in H2.
      revert H1. apply Qle_not_lt, H2.
    + apply ltb_true, Hsame in H2. apply ltb_false in H1.
      revert H2. apply Qle_not_lt, H1.
Qed.

(** X16.  The random draw of a frame matters only through the opponent's
    jump: if the opponent was in the air when the update began, or if two
    draws fall on the same side of 0.01, the update gives the same game
    for both.  The draw never touches the player, the keys or the state. *)
Theorem draw_only_on_ground (dt r1 r2 : number) (g : Game) :
  (forall c, cpu g = Some c -> onGround c = false \/ (r1 < 0.01 <-> r2 < 0.01)) ->
  Game_update dt r1 g = Game_update dt r2 g.
Proof.
  intros Hdraw. unfold Game_update.
  destruct (state g); try reflexivity.
  destruct (player g) as [p |]; [| reflexivity]. cbn [mbind option_bind].
  destruct (cpu g) as [c |]; [| reflexivity]. cbn [mbind option_bind].
  rewrite (cpu_jump_draw r1 r2); [reflexivity |].
  destruct (Hdraw c eq_refl) as [Hair | Hsame]; [left | right; exact Hsame].
  unfold cpu_ai. exact Hair.
Qed.

Lemma draw_only_on_ground_witness :
  Game_update (1 # 60) 0 (fight_game keys_W) = Game_update (1 # 60) (1 # 2) (fight_game keys_W) /\
  Game_update (1 # 60) (1 # 50) (landed_game keys_W) =
    Game_update (1 # 60) (99 # 100) (landed_game keys_W).
Proof.
  split.
  - apply (draw_only_on_ground (1 # 60) 0 (1 # 2) (fight_game keys_W)).
    intros c Hc. left. injection Hc as <-. reflexivity.
  - apply (draw_only_on_ground (1 # 60) (1 # 50) (99 # 100) (landed_game keys_W)).
    intros c _. right. split; discriminate.
Defined.
